(* ====================================================================== *)
(* Call-establishment signalling of callFlowHandler.js (class CallHandler) *)
(*                                                                        *)
(* A shallow embedding: the static fields of CallHandler and the          *)
(* browser's table of pending timeouts form one state record; every       *)
(* handler is a function in a small state-and-trace monad; promise chains *)
(* are explicit continuations (Task) resumed by the completion of the     *)
(* outstanding request.  console.log and DebugLogger.addLog calls, and    *)
(* the resets of chimeHandler's alert flags, touch nothing that is        *)
(* modelled here and are left out.                                        *)
(* ====================================================================== *)

From stdpp Require Import gmap strings list pretty.

Local Open Scope string_scope.

(* ---------------------------------------------------------------------- *)
(* JavaScript values, as far as the handlers look at them                 *)
(* ---------------------------------------------------------------------- *)

#[warnings="-register-all"] Inductive jsval : Type :=
| VUndefined
| VNull
| VBool (b : bool)
| VNum (n : Z)
| VStr (s : string)
| VObj (fields : list (string * jsval)).

(* ToBoolean *)
Definition truthy (v : jsval) : bool :=
  match v with
  | VUndefined | VNull => false
  | VBool b => b
  | VNum n => negb (n =? 0)%Z
  | VStr s => negb (String.eqb s "")
  | VObj _ => true
  end.

Fixpoint assoc (k : string) (fs : list (string * jsval)) : jsval :=
  match fs with
  | [] => VUndefined
  | (k', v) :: fs' => if String.eqb k k' then v else assoc k fs'
  end.

(* v.k where v is known not to be null or undefined: a missing property,
   and any property of a primitive, reads as undefined. *)
Definition prop (v : jsval) (k : string) : jsval :=
  match v with
  | VObj fs => assoc k fs
  | _ => VUndefined
  end.

(* v.k in general: reading a property of null or undefined throws. *)
Definition get (v : jsval) (k : string) : option jsval :=
  match v with
  | VUndefined | VNull => None
  | _ => Some (prop v k)
  end.

(* v === undefined *)
Definition is_undefined (v : jsval) : bool :=
  match v with VUndefined => true | _ => false end.

(* v === null *)
Definition is_null (v : jsval) : bool :=
  match v with VNull => true | _ => false end.

(* v === "s" *)
Definition is_str (v : jsval) (s : string) : bool :=
  match v with VStr s' => String.eqb s' s | _ => false end.

(* a || b *)
Definition js_or (a b : jsval) : jsval := if truthy a then a else b.

(* The guard written throughout the file as
     x === undefined || x === ""                                          *)
Definition missing (v : jsval) : bool := is_undefined v || is_str v "".

(* `${v}` for the values that reach a template literal here. *)
Definition js_to_string (v : jsval) : string :=
  match v with
  | VUndefined => "undefined"
  | VNull => "null"
  | VBool true => "true"
  | VBool false => "false"
  | VNum n => pretty n
  | VStr s => s
  | VObj _ => "[object Object]"
  end.

(* ---------------------------------------------------------------------- *)
(* Constants of the class                                                 *)
(* ---------------------------------------------------------------------- *)

Definition TYPE_INSTANT : string := "INSTANT_ONE_ON_ONE".
Definition TYPE_SCHEDULED : string := "SCHEDULED_ONE_ON_ONE".
Definition TYPE_GROUP : string := "GROUP_ONE_ON_ONE".

Module FLAGS.
Definition CALL_INITIATE : string := "call:initiate".
Definition CALL_INCOMING : string := "call:incoming".
Definition CALL_RINGING : string := "call:ringing".
Definition CALL_ACCEPTED : string := "call:accepted".
Definition CALL_DECLINED : string := "call:declined".
Definition CALL_TIMEOUT : string := "call:timeout".
Definition CALL_CANCELLED : string := "call:cancelled".
Definition CALL_ENDED : string := "call:ended".
Definition SELF_STOP_RING : string := "call:self:stopRinging".
Definition MEETING_READY : string := "meeting:ready".
Definition MEETING_CONNECT : string := "meeting:connect".
Definition MEETING_PROBLEM : string := "meeting:problem".
End FLAGS.

(* Every entry of SCHEMA is { type: "string", required: true }; a schema
   is kept as the list of its field names. *)
Module SCHEMA.
Definition initiate : list string := ["to"; "callType"; "callerId"; "calleeId"; "role"].
Definition accept : list string := ["to"; "callerId"; "calleeId"].
Definition decline : list string := ["to"; "callerId"; "calleeId"; "reason"].
Definition cancel : list string := ["to"; "callerId"; "calleeId"].
Definition timeout : list string := ["to"; "callerId"; "calleeId"].
Definition selfStop : list string := ["to"; "calleeId"].
Definition meetingReady : list string :=
    ["to"; "meetingId"; "callerId"; "calleeId"; "callerRole"; "calleeRole"].
Definition meetingProblem : list string :=
    ["to"; "meetingId"; "callerId"; "calleeId"; "message"].
End SCHEMA.

Definition _ringTimeoutMs : Z := 25000.

(* A payload meets a schema when each listed field holds a string. *)
Definition is_string (v : jsval) : bool :=
  match v with VStr _ => true | _ => false end.

Definition meets_schema (schema : list string) (payload : jsval) : bool :=
  forallb (fun k => is_string (prop payload k)) schema.

(* ---------------------------------------------------------------------- *)
(* Effects visible outside the class                                      *)
(* ---------------------------------------------------------------------- *)

Inductive effect : Type :=
(* SocketHandler.sendSocketMessage({ flag, payload, schema }) *)
| sendSocketMessage (flag : string) (payload : jsval) (schema : option (list string))
(* CallHandler.dipatchUI(state, substate, payload) *)
| dipatchUI (state substate : string) (payload : jsval)
(* document.dispatchEvent(new CustomEvent(name, { detail })) *)
| dispatchEvent (name : string) (detail : jsval)
(* fetch(endpoint, { method: "POST", body: JSON.stringify(body) }) *)
| fetch (endpoint : string) (body : jsval)
(* CallHandler.ensureCamMicReady(mediaType): the permission utility *)
| ensureCamMicReady (mediaType : jsval).

(* The closure handed to setTimeout. *)
Inductive TimerCallback : Type :=
(* the arrow function of the three start handlers; it closes over the ids *)
| callerRingTimeout (callerIdVal calleeIdVal : jsval)
(* the arrow function of handleSocketIncomingCall; its body is empty *)
| calleeRingTimeout.

(* ---------------------------------------------------------------------- *)
(* State                                                                  *)
(* ---------------------------------------------------------------------- *)

Module Invite.
Record t : Type := mk {
    callerId : jsval;
    calleeId : jsval;
    callerRole : jsval;
    callType : jsval;
    callerData : jsval;
    calleeData : jsval;
  }.
Definition empty : t := mk VNull VNull VNull VNull VNull VNull.
End Invite.

Module Pending.
Record t : Type := mk {
    meetingId : jsval;
    calleeId : jsval;
    calleeRole : jsval;
    chimeId : jsval;
    callType : jsval;
    fullMeeting : jsval;
  }.
End Pending.

(* The input elements the handlers read; None is a missing element,
   Some v an element whose .value is v. *)
Module Els.
Record t : Type := mk {
    callType : option jsval;
    role : option jsval;
    currentUserId : option jsval;
    targetUserId : option jsval;
    rejectReason : option jsval;
  }.
Definition empty : t := mk None None None None None.
End Els.

Record State : Type := mkState {
  CALLEE_MANUAL_JOIN_ENABLED : bool;
  _els : Els.t;
  _calleeRingTimerId : option nat;
  _callerRingTimerId : option nat;
  _inCallOrConnecting : bool;
  _pendingCalleeJoin : option Pending.t;
  _currentSide : jsval;
  _invite : Invite.t;
  _currentUserData : jsval;
  _targetUserData : jsval;
  (* the browser: timeouts that are set and have neither fired nor been
     cleared, and the next handle setTimeout returns *)
  timers : gmap nat TimerCallback;
  nextTimerId : nat;
}.

Definition initial : State :=
  mkState true Els.empty None None false None VNull Invite.empty VNull VNull ∅ 1.

Definition set_els (v : Els.t) (st : State) : State :=
  mkState (CALLEE_MANUAL_JOIN_ENABLED st) v (_calleeRingTimerId st)
    (_callerRingTimerId st) (_inCallOrConnecting st) (_pendingCalleeJoin st)
    (_currentSide st) (_invite st) (_currentUserData st) (_targetUserData st)
    (timers st) (nextTimerId st).

Definition set_calleeRingTimerId (v : option nat) (st : State) : State :=
  mkState (CALLEE_MANUAL_JOIN_ENABLED st) (_els st) v (_callerRingTimerId st)
    (_inCallOrConnecting st) (_pendingCalleeJoin st) (_currentSide st) (_invite st)
    (_currentUserData st) (_targetUserData st) (timers st) (nextTimerId st).

Definition set_callerRingTimerId (v : option nat) (st : State) : State :=
  mkState (CALLEE_MANUAL_JOIN_ENABLED st) (_els st) (_calleeRingTimerId st) v
    (_inCallOrConnecting st) (_pendingCalleeJoin st) (_currentSide st) (_invite st)
    (_currentUserData st) (_targetUserData st) (timers st) (nextTimerId st).

Definition set_inCallOrConnecting (v : bool) (st : State) : State :=
  mkState (CALLEE_MANUAL_JOIN_ENABLED st) (_els st) (_calleeRingTimerId st)
    (_callerRingTimerId st) v (_pendingCalleeJoin st) (_currentSide st) (_invite st)
    (_currentUserData st) (_targetUserData st) (timers st) (nextTimerId st).

Definition set_pendingCalleeJoin (v : option Pending.t) (st : State) : State :=
  mkState (CALLEE_MANUAL_JOIN_ENABLED st) (_els st) (_calleeRingTimerId st)
    (_callerRingTimerId st) (_inCallOrConnecting st) v (_currentSide st) (_invite st)
    (_currentUserData st) (_targetUserData st) (timers st) (nextTimerId st).

Definition set_currentSide (v : jsval) (st : State) : State :=
  mkState (CALLEE_MANUAL_JOIN_ENABLED st) (_els st) (_calleeRingTimerId st)
    (_callerRingTimerId st) (_inCallOrConnecting st) (_pendingCalleeJoin st) v (_invite st)
    (_currentUserData st) (_targetUserData st) (timers st) (nextTimerId st).

Definition set_invite (v : Invite.t) (st : State) : State :=
  mkState (CALLEE_MANUAL_JOIN_ENABLED st) (_els st) (_calleeRingTimerId st)
    (_callerRingTimerId st) (_inCallOrConnecting st) (_pendingCalleeJoin st)
    (_currentSide st) v (_currentUserData st) (_targetUserData st) (timers st)
    (nextTimerId st).

Definition set_timers (v : gmap nat TimerCallback) (n : nat) (st : State) : State :=
  mkState (CALLEE_MANUAL_JOIN_ENABLED st) (_els st) (_calleeRingTimerId st)
    (_callerRingTimerId st) (_inCallOrConnecting st) (_pendingCalleeJoin st)
    (_currentSide st) (_invite st) (_currentUserData st) (_targetUserData st) v n.

(* ---------------------------------------------------------------------- *)
(* The monad of the handlers: state, and the trace of effects in order    *)
(* ---------------------------------------------------------------------- *)

Definition M (A : Type) : Type := State -> A * State * list effect.

Definition ret {A} (a : A) : M A := fun st => (a, st, []).

Definition bind {A B} (m : M A) (k : A -> M B) : M B :=
  fun st =>
    let '(a, st1, trace1) := m st in
    let '(b, st2, trace2) := k a st1 in
    (b, st2, (trace1 ++ trace2)%list).

Definition gets {A} (f : State -> A) : M A := fun st => (f st, st, []).
Definition modify (f : State -> State) : M unit := fun st => (tt, f st, []).
Definition emit (e : effect) : M unit := fun st => (tt, st, [e]).

Declare Scope js_scope.
Delimit Scope js_scope with js.
Notation "x <- m ;; k" := (bind m (fun x => k))
  (at level 100, m at next level, right associativity) : js_scope.
Notation "m ;; k" := (bind m (fun _ => k))
  (at level 100, right associativity) : js_scope.
Local Open Scope js_scope.

(* ---------------------------------------------------------------------- *)
(* Timers                                                                 *)
(* ---------------------------------------------------------------------- *)

Definition setTimeout (cb : TimerCallback) : M nat :=
  fun st =>
    let id := nextTimerId st in
    (id, set_timers (<[id := cb]> (timers st)) (S id) st, []).

Definition clearTimeout (id : nat) : M unit :=
  modify (fun st => set_timers (delete id (timers st)) (nextTimerId st) st).

Definition clearCalleeRingTimer : M unit :=
  h <- gets _calleeRingTimerId ;;
  match h with
  | Some id => clearTimeout id ;; modify (set_calleeRingTimerId None)
  | None => ret tt
  end.

Definition clearCallerRingTimer : M unit :=
  h <- gets _callerRingTimerId ;;
  match h with
  | Some id => clearTimeout id ;; modify (set_callerRingTimerId None)
  | None => ret tt
  end.

(* A timeout that is due fires once: it leaves the table and its callback
   runs.  Firing a handle that was cleared, or has fired, does nothing.
   Time itself is not modelled: an armed timeout may fire at any step. *)
Definition runTimerCallback (cb : TimerCallback) : M unit :=
  match cb with
  | callerRingTimeout callerIdVal calleeIdVal =>
      emit (sendSocketMessage FLAGS.CALL_TIMEOUT
              (VObj [("to", calleeIdVal); ("callerId", callerIdVal);
                     ("calleeId", calleeIdVal)])
              (Some SCHEMA.timeout)) ;;
      emit (sendSocketMessage FLAGS.SELF_STOP_RING
              (VObj [("to", callerIdVal); ("calleeId", callerIdVal)])
              (Some SCHEMA.selfStop)) ;;
      emit (dipatchUI "caller:terminated" "timeout"
              (VObj [("callerId", callerIdVal); ("calleeId", calleeIdVal)]))
  | calleeRingTimeout => ret tt
  end.

Definition fireTimer (id : nat) : M unit :=
  cb <- gets (fun st => timers st !! id) ;;
  match cb with
  | Some cb => clearTimeout id ;; runTimerCallback cb
  | None => ret tt
  end.

(* ---------------------------------------------------------------------- *)
(* Requests and their completions                                         *)
(* ---------------------------------------------------------------------- *)

Inductive result (A : Type) : Type :=
| Ok (a : A)
| Throw (message : string).
Arguments Ok {A} a.
Arguments Throw {A} message.

(* What an awaited fetch hands back.  meetingInfoDecoded stands for
   JSON.parse(atob(data.meetingInfo)): None when either call throws. *)
Record Response : Type := mkResponse {
  ok : bool;
  status : Z;
  statusText : string;
  text : string;
  json : result jsval;
  meetingInfoDecoded : option jsval;
}.

Inductive FetchResult : Type :=
| Rejected (message : string)
| Resolved (response : Response).

Definition _scyllaDatabaseEndpoint : string :=
  "https://fns5h6php6v5qalzaoxmcq532y0dzrro.lambda-url.ap-northeast-1.on.aws/".
Definition _chimeMeetingEndpoint : string :=
  "https://huugn2oais26si45yoqoui6byu0iqhtl.lambda-url.ap-northeast-1.on.aws/".

(* The text of an engine's TypeError is not fixed by the language. *)
Definition TypeError : string := "TypeError".

(* err && err.message ? err.message : "Unknown error" *)
Definition message_or_unknown (message : string) : string :=
  if String.eqb message "" then "Unknown error" else message.

(* The arguments of one joinChimeMeeting call. *)
Module Join.
Record t : Type := mk {
  meetingId : jsval;
  userId : jsval;
  role : jsval;
  chimeMeetingId : jsval;
  callType : jsval;
  fullMeeting : jsval;
}.
End Join.

(* Which accept handler started a provisioning chain. *)
Inductive AcceptPath : Type := viaButton | viaAppEvent.

(* Who called joinChimeMeeting: it decides the then and catch that follow. *)
Inductive Joiner : Type :=
| calleeAutoJoin (callerIdVal calleeIdVal : jsval)
| calleeManualJoin
| callerJoin (body : jsval).

(* A promise chain waiting for its outstanding request. *)
Inductive Task : Type :=
| awaitMeetingID (path : AcceptPath) (callerIdVal calleeIdVal calleeRole : jsval)
| awaitChimeMeeting (path : AcceptPath) (callerIdVal calleeIdVal calleeRole : jsval)
    (meetingId : jsval) (camMic : option bool)
| awaitCamMic (path : AcceptPath) (callerIdVal calleeIdVal calleeRole : jsval)
    (meetingId chimeId fullMeeting : jsval)
| awaitAddAttendee (who : Joiner) (args : Join.t).

(* What a chain can be waiting for: the answer to its fetch, or the
   promise of ensureCamMicReady resolving.  The body of ensureCamMicReady
   (permission checks and their UI states) is not modelled; its promise
   never rejects. *)
Inductive Completion : Type :=
| fetched (r : FetchResult)
| camMicReady.

(* ---------------------------------------------------------------------- *)
(* Socket event handlers                                                  *)
(* ---------------------------------------------------------------------- *)

(* joinChimeMeeting up to its first await: the addAttendee request. *)
Definition joinChimeMeeting_request (args : Join.t) : M unit :=
  emit (fetch _chimeMeetingEndpoint
          (VObj [("action", VStr "addAttendee");
                 ("meetingId", Join.chimeMeetingId args);
                 ("externalUserId", Join.userId args);
                 ("role", Join.role args)])).

Definition handleSocketIncomingCall (body : jsval) : M (option Task) :=
  if negb (truthy body) then ret None
  else if negb (is_str (prop body "callType") TYPE_INSTANT) then ret None
  else if missing (prop body "callerId") then ret None
  else if missing (prop body "calleeId") then ret None
  else if missing (prop body "role") then ret None
  else
    busy <- gets _inCallOrConnecting ;;
    if busy then
      emit (sendSocketMessage FLAGS.CALL_DECLINED
              (VObj [("to", prop body "callerId");
                     ("callerId", prop body "callerId");
                     ("calleeId", prop body "calleeId");
                     ("reason", VStr "in_another_call")])
              (Some SCHEMA.decline)) ;;
      emit (dipatchUI "callee:terminated" "auto-declined"
              (VObj [("callerId", prop body "callerId");
                     ("calleeId", prop body "calleeId");
                     ("reason", VStr "in_another_call")])) ;;
      ret None
    else
      modify (set_invite
                (Invite.mk (prop body "callerId") (prop body "calleeId")
                   (prop body "role")
                   (js_or (prop body "mediaType") (VStr "video"))
                   (js_or (prop body "callerData") VNull)
                   (js_or (prop body "calleeData") VNull))) ;;
      modify (set_currentSide (VStr "callee")) ;;
      emit (dispatchEvent FLAGS.CALL_RINGING
              (VObj [("callerId", prop body "callerId");
                     ("calleeId", prop body "calleeId");
                     ("callerData", prop body "callerData");
                     ("calleeData", prop body "calleeData")])) ;;
      emit (dipatchUI
              (if is_str (js_or (prop body "mediaType") (VStr "video")) "audio"
               then "callee:incomingAudioCall" else "callee:incomingVideoCall")
              "none"
              (VObj [("callerId", prop body "callerId");
                     ("calleeId", prop body "calleeId");
                     ("callerRole", prop body "role");
                     ("callerData", prop body "callerData");
                     ("calleeData", prop body "calleeData")])) ;;
      clearCalleeRingTimer ;;
      id <- setTimeout calleeRingTimeout ;;
      modify (set_calleeRingTimerId (Some id)) ;;
      ret None.

Definition handleSocketAccepted (body : jsval) : M (option Task) :=
  if negb (truthy body) then ret None
  else if missing (prop body "callerId") then ret None
  else if missing (prop body "calleeId") then ret None
  else
    clearCallerRingTimer ;;
    modify (set_currentSide (VStr "caller")) ;;
    emit (dipatchUI "caller:callAccepted" "none"
            (VObj [("callerId", prop body "callerId");
                   ("calleeId", prop body "calleeId");
                   ("side", VStr "caller")])) ;;
    modify (set_inCallOrConnecting true) ;;
    ret None.

Definition handleSocketDeclined (body : jsval) : M (option Task) :=
  if negb (truthy body) then ret None
  else if missing (prop body "callerId") then ret None
  else if missing (prop body "calleeId") then ret None
  else if missing (prop body "reason") then ret None
  else
    clearCallerRingTimer ;;
    emit (dispatchEvent FLAGS.CALL_ENDED
            (VObj [("reason", VStr "declined");
                   ("callerId", prop body "callerId");
                   ("calleeId", prop body "calleeId")])) ;;
    emit (dipatchUI "caller:declined" "none"
            (VObj [("callerId", prop body "callerId");
                   ("calleeId", prop body "calleeId");
                   ("reason", prop body "reason")])) ;;
    ret None.

(* body ? body.k : undefined *)
Definition prop_if (body : jsval) (k : string) : jsval :=
  if truthy body then prop body k else VUndefined.

Definition handleSocketTimeout (body : jsval) : M (option Task) :=
  clearCallerRingTimer ;;
  clearCalleeRingTimer ;;
  modify (set_inCallOrConnecting false) ;;
  emit (dispatchEvent FLAGS.CALL_ENDED
          (VObj [("reason", VStr "timeout");
                 ("callerId", prop_if body "callerId");
                 ("calleeId", prop_if body "calleeId")])) ;;
  emit (dipatchUI "caller:terminated" "timeout"
          (VObj [("callerId", prop_if body "callerId");
                 ("calleeId", prop_if body "calleeId")])) ;;
  ret None.

Definition handleSocketCancelled (body : jsval) : M (option Task) :=
  clearCallerRingTimer ;;
  clearCalleeRingTimer ;;
  emit (dispatchEvent FLAGS.CALL_ENDED
          (VObj [("reason", VStr "hangup");
                 ("callerId", prop_if body "callerId");
                 ("calleeId", prop_if body "calleeId")])) ;;
  emit (dipatchUI "callee:terminated" "cancelled"
          (VObj [("callerId", prop_if body "callerId");
                 ("calleeId", prop_if body "calleeId")])) ;;
  ret None.

Definition handleSocketSelfStopRinging (body : jsval) : M (option Task) :=
  clearCallerRingTimer ;;
  clearCalleeRingTimer ;;
  ret None.

(* The joinUrl entry of the UI payload, a placeholder link built with
   encodeURIComponent, is not represented. *)
Definition handleSocketMeetingReady (body : jsval) : M (option Task) :=
  if negb (truthy body) then ret None
  else if missing (prop body "meetingId") then ret None
  else if missing (prop body "callerId") then ret None
  else if missing (prop body "calleeId") then ret None
  else if missing (prop body "callerRole") then ret None
  else if missing (prop body "calleeRole") then ret None
  else
    emit (dipatchUI "caller:callAccepted" "none"
            (VObj [("side", VStr "caller");
                   ("meetingId", prop body "meetingId");
                   ("callerId", prop body "callerId");
                   ("calleeId", prop body "calleeId");
                   ("callerRole", prop body "callerRole");
                   ("calleeRole", prop body "calleeRole")])) ;;
    callType <- gets (fun st => Invite.callType (_invite st)) ;;
    let args := Join.mk (prop body "meetingId") (prop body "callerId")
                  (prop body "callerRole") (prop body "chimeMeetingId")
                  callType VNull in
    joinChimeMeeting_request args ;;
    ret (Some (awaitAddAttendee (callerJoin body) args)).

Definition handleSocketMeetingProblem (body : jsval) : M (option Task) :=
  modify (set_inCallOrConnecting false) ;;
  emit (dipatchUI "caller:terminated" "error"
          (VObj [("message",
                  if truthy body && truthy (prop body "message")
                  then prop body "message" else VStr "meeting problem")])) ;;
  ret None.

(* ---------------------------------------------------------------------- *)
(* Meeting operations (the part of each async function after its await)   *)
(* ---------------------------------------------------------------------- *)

(* getMeetingID up to its await.  The eventId of the request body is
   `event_${Date.now()}` and is not represented. *)
Definition getMeetingID_request (userId role : jsval) : M unit :=
  emit (fetch (_scyllaDatabaseEndpoint ++ "createInstantMeeting")
          (VObj [("initiatorId", userId)])).

Definition getMeetingID_finish (r : FetchResult) : result jsval :=
  match r with
  | Rejected message => Throw message
  | Resolved response =>
      if negb (ok response) then
        Throw ("CreateInstantMeeting failed: " ++ pretty (status response) ++ " "
               ++ statusText response
               ++ (if String.eqb (text response) "" then ""
                   else " | " ++ text response))
      else
        match json response with
        | Throw message => Throw message
        | Ok data =>
            match get data "success" with
            | None => Throw TypeError
            | Some success =>
                if truthy success && truthy (prop data "data")
                then Ok (prop data "data")
                else Throw ("Failed to create Scylla meeting: "
                            ++ js_to_string (js_or (prop data "error")
                                               (VStr "Unknown error")))
            end
        end
  end.

Definition createChimeMeeting_request (meetingId userId role : jsval) : M unit :=
  emit (fetch _chimeMeetingEndpoint
          (VObj [("action", VStr "createMeeting");
                 ("externalMeetingId", meetingId)])).

(* Returns { chimeMeetingId, fullMeeting } as a pair. *)
Definition createChimeMeeting_finish (r : FetchResult) : result (jsval * jsval) :=
  match r with
  | Rejected message => Throw message
  | Resolved response =>
      match json response with
      | Throw message => Throw message
      | Ok data =>
          match get data "meetingId" with
          | None => Throw TypeError
          | Some meetingId =>
              if truthy meetingId && truthy (prop data "meeting")
              then Ok (meetingId, prop data "meeting")
              else Throw ("Failed to create Chime meeting: "
                          ++ js_to_string (js_or (prop data "error")
                                             (VStr "Unknown error")))
          end
      end
  end.

(* STEP 2 of joinChimeMeeting: `let meeting; let attendee;` followed by
   four guarded assignments.  Each block is a function on the pair of
   variables; None is the unassigned (undefined) variable. *)
Definition Extracted : Type := option jsval * option jsval.

(* The object literal built from the decoded meetingInfo. *)
Definition meeting_of_decoded (meetingInfoDecoded placement currentMeetingId : jsval)
    : jsval :=
  VObj [("MeetingId", js_or (prop meetingInfoDecoded "MeetingId") currentMeetingId);
        ("MediaPlacement", placement);
        ("MediaRegion",
         js_or (prop meetingInfoDecoded "MediaRegion") (VStr "ap-northeast-1"));
        ("ExternalMeetingId",
         js_or (prop meetingInfoDecoded "ExternalMeetingId") currentMeetingId)].

(* The object literal built from a top-level MediaPlacement. *)
Definition meeting_of_top_level (data currentMeetingId : jsval) : jsval :=
  VObj [("MeetingId", currentMeetingId);
        ("MediaPlacement", prop data "MediaPlacement");
        ("MediaRegion", js_or (prop data "MediaRegion") (VStr "ap-northeast-1"));
        ("ExternalMeetingId", currentMeetingId)].

(* if (data.meetingInfo) { try { ... } catch (err) { } } *)
Definition from_meetingInfo (data : jsval) (decoded : option jsval)
    (currentMeetingId : jsval) (vars : Extracted) : Extracted :=
  if truthy (prop data "meetingInfo") then
    match decoded with
    | None => vars
    | Some meetingInfoDecoded =>
        match get meetingInfoDecoded "MediaPlacement" with
        | None => vars
        | Some placement =>
            let meeting :=
              if truthy placement && truthy (prop placement "AudioHostUrl") then
                Some (meeting_of_decoded meetingInfoDecoded placement currentMeetingId)
              else vars.1 in
            let attendee :=
              if truthy (prop meetingInfoDecoded "Attendee")
              then Some (prop meetingInfoDecoded "Attendee") else vars.2 in
            (meeting, attendee)
        end
    end
  else vars.

(* if (!meeting && data.MediaPlacement && data.MediaPlacement.AudioHostUrl) *)
Definition from_top_level (data currentMeetingId : jsval) (vars : Extracted) : Extracted :=
  match vars.1 with
  | None =>
      if truthy (prop data "MediaPlacement")
         && truthy (prop (prop data "MediaPlacement") "AudioHostUrl")
      then (Some (meeting_of_top_level data currentMeetingId), vars.2)
      else vars
  | Some _ => vars
  end.

(* if (!meeting && data.meeting && data.meeting.MediaPlacement) *)
Definition from_meeting_field (data : jsval) (vars : Extracted) : Extracted :=
  match vars.1 with
  | None =>
      if truthy (prop data "meeting")
         && truthy (prop (prop data "meeting") "MediaPlacement")
      then (Some (prop data "meeting"), vars.2)
      else vars
  | Some _ => vars
  end.

(* if (!meeting && fullMeeting) *)
Definition from_fullMeeting (fullMeeting : jsval) (vars : Extracted) : Extracted :=
  match vars.1 with
  | None => if truthy fullMeeting then (Some fullMeeting, vars.2) else vars
  | Some _ => vars
  end.

Definition extract (data : jsval) (decoded : option jsval)
    (chimeMeetingId fullMeeting : jsval) : Extracted :=
  from_fullMeeting fullMeeting
    (from_meeting_field data
       (from_top_level data chimeMeetingId
          (from_meetingInfo data decoded chimeMeetingId (None, None)))).

Definition missing_placement : string :=
  "addAttendee response missing Meeting with MediaPlacement".

(* if (!meeting || !meeting.MediaPlacement) throw ...; then the fallback
   attendee; the result is the pair (meeting, attendee). *)
Definition validate (data userId : jsval) (vars : Extracted) : result (jsval * jsval) :=
  match vars.1 with
  | None => Throw missing_placement
  | Some meeting =>
      if negb (truthy meeting) || negb (truthy (prop meeting "MediaPlacement"))
      then Throw missing_placement
      else
        Ok (meeting,
            match vars.2 with
            | Some attendee => attendee
            | None => VObj [("AttendeeId", prop data "attendeeId");
                            ("ExternalUserId", userId)]
            end)
  end.

(* joinChimeMeeting after its await: the (meeting, attendee) it joins
   with, or the error it rethrows. *)
Definition joinChimeMeeting_finish (args : Join.t) (r : FetchResult)
    : result (jsval * jsval) :=
  match r with
  | Rejected message => Throw message
  | Resolved response =>
      if negb (ok response) then
        Throw ("addAttendee failed: " ++ pretty (status response) ++ " "
               ++ statusText response)
      else
        match json response with
        | Throw message => Throw message
        | Ok data =>
            match get data "success" with
            | None => Throw TypeError
            | Some success =>
                if negb (truthy success) || negb (truthy (prop data "attendeeId"))
                then Throw ("addAttendee failed: "
                            ++ js_to_string (js_or (prop data "error")
                                               (VStr "missing attendeeId")))
                else
                  validate data (Join.userId args)
                    (extract data (meetingInfoDecoded response)
                       (Join.chimeMeetingId args) (Join.fullMeeting args))
            end
        end
  end.

(* The detail of the chime:join:meeting event. *)
Definition join_event (args : Join.t) (joined : jsval * jsval) : effect :=
  dispatchEvent "chime:join:meeting"
    (VObj [("meetingInfo", VObj [("Meeting", joined.1)]);
           ("attendeeInfo", VObj [("Attendee", joined.2)]);
           ("userId", Join.userId args);
           ("role", Join.role args);
           ("callType", js_or (Join.callType args) (VStr "video"))]).

(* ---------------------------------------------------------------------- *)
(* Local actions                                                          *)
(* ---------------------------------------------------------------------- *)

(* const d = e && e.detail ? e.detail : undefined *)
Definition detail_of (e : jsval) : jsval :=
  if truthy e && truthy (prop e "detail") then prop e "detail" else VUndefined.

(* What the three start handlers do once their inputs are accepted,
   after the local event and the Initiate message: side, UI, ring timer. *)
Definition start_ringing (callerIdVal calleeIdVal : jsval) (ui : jsval) : M (option Task) :=
  modify (set_currentSide (VStr "caller")) ;;
  emit (dipatchUI "caller:callWaiting" "none" ui) ;;
  clearCallerRingTimer ;;
  id <- setTimeout (callerRingTimeout callerIdVal calleeIdVal) ;;
  modify (set_callerRingTimerId (Some id)) ;;
  ret None.

Definition handleStartInstantCallClick : M (option Task) :=
  els <- gets _els ;;
  match Els.callType els, Els.role els, Els.currentUserId els, Els.targetUserId els with
  | Some callTypeVal, Some callerRole, Some callerIdVal, Some calleeIdVal =>
      if negb (is_str callTypeVal TYPE_INSTANT) then ret None
      else if missing callerIdVal then ret None
      else if missing calleeIdVal then ret None
      else if missing callerRole then ret None
      else
        emit (dispatchEvent FLAGS.CALL_INITIATE
                (VObj [("callerId", callerIdVal); ("calleeId", calleeIdVal);
                       ("type", callTypeVal); ("role", callerRole)])) ;;
        emit (sendSocketMessage FLAGS.CALL_INITIATE
                (VObj [("to", calleeIdVal); ("callType", callTypeVal);
                       ("callerId", callerIdVal); ("calleeId", calleeIdVal);
                       ("role", callerRole)])
                (Some SCHEMA.initiate)) ;;
        start_ringing callerIdVal calleeIdVal
          (VObj [("callerId", callerIdVal); ("calleeId", calleeIdVal);
                 ("role", callerRole)])
  | _, _, _, _ => ret None
  end.

Definition _initiateCall (mediaType : jsval) : M (option Task) :=
  els <- gets _els ;;
  match Els.role els, Els.currentUserId els, Els.targetUserId els with
  | Some callerRole, Some callerIdVal, Some calleeIdVal =>
      if missing callerIdVal then ret None
      else if missing calleeIdVal then ret None
      else if missing callerRole then ret None
      else
        modify (fun st =>
                  set_invite
                    (Invite.mk (Invite.callerId (_invite st))
                       (Invite.calleeId (_invite st))
                       (Invite.callerRole (_invite st)) mediaType
                       (Invite.callerData (_invite st))
                       (Invite.calleeData (_invite st))) st) ;;
        currentUserData <- gets _currentUserData ;;
        targetUserData <- gets _targetUserData ;;
        emit (dispatchEvent FLAGS.CALL_INITIATE
                (VObj [("callerId", callerIdVal); ("calleeId", calleeIdVal);
                       ("type", VStr TYPE_INSTANT); ("role", callerRole)])) ;;
        emit (sendSocketMessage FLAGS.CALL_INITIATE
                (VObj [("to", calleeIdVal); ("callType", VStr TYPE_INSTANT);
                       ("callerId", callerIdVal); ("calleeId", calleeIdVal);
                       ("role", callerRole); ("mediaType", mediaType);
                       ("callerData", currentUserData);
                       ("calleeData", targetUserData)])
                (Some SCHEMA.initiate)) ;;
        start_ringing callerIdVal calleeIdVal
          (VObj [("callerId", callerIdVal); ("calleeId", calleeIdVal);
                 ("role", callerRole); ("callerData", currentUserData);
                 ("calleeData", targetUserData)])
  | _, _, _ => ret None
  end.

Definition handleStartAudioCallClick : M (option Task) := _initiateCall (VStr "audio").
Definition handleStartVideoCallClick : M (option Task) := _initiateCall (VStr "video").

Definition handleAppStartCall (e : jsval) : M (option Task) :=
  let d := detail_of e in
  if negb (truthy d) then ret None
  else
    let callerId := prop d "callerId" in
    let calleeId := prop d "calleeId" in
    let callerRole := prop d "role" in
    let callType := prop d "callType" in
    if negb (is_str callType TYPE_INSTANT) then ret None
    else if missing callerId then ret None
    else if missing calleeId then ret None
    else if missing callerRole then ret None
    else
      emit (dispatchEvent FLAGS.CALL_INITIATE
              (VObj [("callerId", callerId); ("calleeId", calleeId);
                     ("type", callType); ("role", callerRole)])) ;;
      emit (sendSocketMessage FLAGS.CALL_INITIATE
              (VObj [("to", calleeId); ("callType", callType);
                     ("callerId", callerId); ("calleeId", calleeId);
                     ("role", callerRole)])
              (Some SCHEMA.initiate)) ;;
      start_ringing callerId calleeId
        (VObj [("callerId", callerId); ("calleeId", calleeId);
               ("role", callerRole)]).

(* The tail shared by handleAcceptClick and handleAppAcceptCall: the two
   messages to the peers, the local event, the first status message and
   the getMeetingID request. *)
Definition announce_accept (path : AcceptPath)
    (callerIdVal calleeIdVal calleeRole : jsval) : M (option Task) :=
  emit (sendSocketMessage FLAGS.SELF_STOP_RING
          (VObj [("to", calleeIdVal); ("calleeId", calleeIdVal)])
          (Some SCHEMA.selfStop)) ;;
  emit (sendSocketMessage FLAGS.CALL_ACCEPTED
          (VObj [("to", callerIdVal); ("callerId", callerIdVal);
                 ("calleeId", calleeIdVal)])
          (Some SCHEMA.accept)) ;;
  emit (dispatchEvent FLAGS.CALL_ACCEPTED
          (VObj [("callerId", callerIdVal); ("calleeId", calleeIdVal)])) ;;
  emit (sendSocketMessage "meeting:status"
          (VObj [("to", callerIdVal); ("status", VStr "creating_db");
                 ("message", VStr "Creating meeting in database...")])
          None) ;;
  getMeetingID_request calleeIdVal calleeRole ;;
  ret (Some (awaitMeetingID path callerIdVal calleeIdVal calleeRole)).

Definition handleAcceptClick : M (option Task) :=
  els <- gets _els ;;
  match Els.currentUserId els, Els.targetUserId els, Els.callType els, Els.role els with
  | Some calleeIdVal, Some callerIdVal, Some callTypeVal, Some calleeRole =>
      if negb (is_str callTypeVal TYPE_INSTANT) then ret None
      else if missing callerIdVal then ret None
      else if missing calleeIdVal then ret None
      else if missing calleeRole then ret None
      else
        callerRole <- gets (fun st => Invite.callerRole (_invite st)) ;;
        if is_null callerRole then ret None
        else
          clearCalleeRingTimer ;;
          modify (set_currentSide (VStr "callee")) ;;
          emit (dipatchUI "callee:callAccepted" "none"
                  (VObj [("callerId", callerIdVal); ("calleeId", calleeIdVal);
                         ("role", calleeRole)])) ;;
          modify (set_inCallOrConnecting true) ;;
          announce_accept viaButton callerIdVal calleeIdVal calleeRole
  | _, _, _, _ => ret None
  end.

Definition handleAppAcceptCall (e : jsval) : M (option Task) :=
  let d := detail_of e in
  if negb (truthy d) then ret None
  else
    let callerId := prop d "callerId" in
    let calleeId := prop d "calleeId" in
    let calleeRole := prop d "role" in
    let callType := prop d "callType" in
    if negb (is_str callType TYPE_INSTANT) then ret None
    else if missing callerId then ret None
    else if missing calleeId then ret None
    else if missing calleeRole then ret None
    else
      callerRole <- gets (fun st => Invite.callerRole (_invite st)) ;;
      if is_null callerRole then ret None
      else
        modify (set_currentSide (VStr "callee")) ;;
        emit (dipatchUI "callee:callAccepted" "none"
                (VObj [("callerId", callerId); ("calleeId", calleeId);
                       ("role", calleeRole)])) ;;
        announce_accept viaAppEvent callerId calleeId calleeRole.

Definition handleManualCalleeJoin : M (option Task) :=
  pending <- gets _pendingCalleeJoin ;;
  match pending with
  | None => ret None
  | Some p =>
      modify (set_pendingCalleeJoin None) ;;
      let args := Join.mk (Pending.meetingId p) (Pending.calleeId p)
                    (Pending.calleeRole p) (Pending.chimeId p)
                    (Pending.callType p) (Pending.fullMeeting p) in
      joinChimeMeeting_request args ;;
      ret (Some (awaitAddAttendee calleeManualJoin args))
  end.

(* The click listener init() puts on the Join Meeting button. *)
Definition joinMeetingButtonClick : M (option Task) :=
  pending <- gets _pendingCalleeJoin ;;
  match pending with
  | Some _ => handleManualCalleeJoin
  | None => ret None
  end.

(* ---------------------------------------------------------------------- *)
(* The provisioning chain of the callee, and the joins                    *)
(* ---------------------------------------------------------------------- *)

(* .catch of the chain in handleAcceptClick and handleAppAcceptCall *)
Definition calleeChainCatch (callerIdVal calleeIdVal : jsval) (message : string)
    : M (option Task) :=
  modify (set_inCallOrConnecting false) ;;
  emit (dipatchUI "callee:terminated" "error"
          (VObj [("message", VStr (message_or_unknown message))])) ;;
  emit (sendSocketMessage FLAGS.MEETING_PROBLEM
          (VObj [("to", callerIdVal); ("meetingId", VStr "unknown");
                 ("callerId", callerIdVal); ("calleeId", calleeIdVal);
                 ("message", VStr (message_or_unknown message))])
          (Some SCHEMA.meetingProblem)) ;;
  ret None.

(* first .then: the meeting id is known *)
Definition afterMeetingID (path : AcceptPath)
    (callerIdVal calleeIdVal calleeRole meetingId : jsval) : M (option Task) :=
  emit (sendSocketMessage "meeting:status"
          (VObj [("to", callerIdVal); ("status", VStr "creating_chime");
                 ("message",
                  VStr "Database meeting created. Creating Chime meeting...");
                 ("meetingId", meetingId)])
          None) ;;
  callType <- gets (fun st => Invite.callType (_invite st)) ;;
  manual <- gets CALLEE_MANUAL_JOIN_ENABLED ;;
  if manual then
    createChimeMeeting_request meetingId calleeIdVal calleeRole ;;
    ret (Some (awaitChimeMeeting path callerIdVal calleeIdVal calleeRole meetingId None))
  else
    createChimeMeeting_request meetingId calleeIdVal calleeRole ;;
    emit (ensureCamMicReady (js_or callType (VStr "video"))) ;;
    ret (Some (awaitChimeMeeting path callerIdVal calleeIdVal calleeRole meetingId
                 (Some false))).

(* second .then: the Chime meeting exists *)
Definition afterChimeMeeting (path : AcceptPath)
    (callerIdVal calleeIdVal calleeRole meetingId chimeId fullMeeting : jsval)
    : M (option Task) :=
  invite <- gets _invite ;;
  emit (sendSocketMessage FLAGS.MEETING_READY
          (VObj [("to",
                  match path with
                  | viaButton => js_or (Invite.callerId invite) callerIdVal
                  | viaAppEvent => callerIdVal
                  end);
                 ("meetingId", meetingId);
                 ("callerId", callerIdVal);
                 ("calleeId", calleeIdVal);
                 ("callerRole", Invite.callerRole invite);
                 ("calleeRole", calleeRole);
                 ("chimeMeetingId", chimeId);
                 ("dbMeetingId", meetingId)])
          (Some SCHEMA.meetingReady)) ;;
  manual <- gets CALLEE_MANUAL_JOIN_ENABLED ;;
  if manual then
    emit (dipatchUI "callee:connected" "none"
            (VObj [("meetingId", meetingId); ("userId", calleeIdVal);
                   ("role", calleeRole)])) ;;
    modify (set_pendingCalleeJoin
              (Some (Pending.mk meetingId calleeIdVal calleeRole chimeId
                       (Invite.callType invite) fullMeeting))) ;;
    ret None
  else
    let args := Join.mk meetingId calleeIdVal calleeRole chimeId
                  (Invite.callType invite) fullMeeting in
    joinChimeMeeting_request args ;;
    ret (Some (awaitAddAttendee (calleeAutoJoin callerIdVal calleeIdVal) args)).

(* .then of a joinChimeMeeting call *)
Definition joinThen (who : Joiner) (args : Join.t) : M (option Task) :=
  match who with
  | calleeAutoJoin _ _ | calleeManualJoin =>
      emit (dispatchEvent FLAGS.MEETING_CONNECT
              (VObj [("meetingId", Join.meetingId args);
                     ("userId", Join.userId args);
                     ("role", Join.role args);
                     ("chimeMeetingId", Join.chimeMeetingId args)])) ;;
      ret None
  | callerJoin _ => ret None
  end.

(* .catch of a joinChimeMeeting call *)
Definition joinCatch (who : Joiner) (message : string) : M (option Task) :=
  match who with
  | calleeAutoJoin callerIdVal calleeIdVal =>
      calleeChainCatch callerIdVal calleeIdVal message
  | calleeManualJoin =>
      modify (set_inCallOrConnecting false) ;;
      emit (dipatchUI "callee:terminated" "error"
              (VObj [("message", VStr (message_or_unknown message))])) ;;
      ret None
  | callerJoin body =>
      emit (dipatchUI "caller:terminated" "error"
              (VObj [("message", VStr "caller join failed");
                     ("meetingId", prop body "meetingId")])) ;;
      emit (dispatchEvent FLAGS.MEETING_PROBLEM
              (VObj [("meetingId", prop body "meetingId");
                     ("callerId", prop body "callerId");
                     ("calleeId", prop body "calleeId");
                     ("message", VStr "join failed")])) ;;
      ret None
  end.

(* One step of a promise chain: the outstanding request completes.  In
   auto-join mode Promise.all waits for both createChimeMeeting and
   ensureCamMicReady, in either order, and rejects as soon as the first
   rejects.  A completion the task is not waiting for leaves it waiting. *)
Definition resume (t : Task) (c : Completion) : M (option Task) :=
  match t, c with
  | awaitMeetingID path callerIdVal calleeIdVal calleeRole, fetched r =>
      match getMeetingID_finish r with
      | Ok meetingId => afterMeetingID path callerIdVal calleeIdVal calleeRole meetingId
      | Throw message => calleeChainCatch callerIdVal calleeIdVal message
      end
  | awaitChimeMeeting path callerIdVal calleeIdVal calleeRole meetingId camMic, fetched r =>
      match createChimeMeeting_finish r with
      | Ok (chimeId, fullMeeting) =>
          match camMic with
          | Some false =>
              ret (Some (awaitCamMic path callerIdVal calleeIdVal calleeRole meetingId
                           chimeId fullMeeting))
          | _ =>
              afterChimeMeeting path callerIdVal calleeIdVal calleeRole meetingId
                chimeId fullMeeting
          end
      | Throw message => calleeChainCatch callerIdVal calleeIdVal message
      end
  | awaitChimeMeeting path callerIdVal calleeIdVal calleeRole meetingId (Some false),
    camMicReady =>
      ret (Some (awaitChimeMeeting path callerIdVal calleeIdVal calleeRole meetingId
                   (Some true)))
  | awaitCamMic path callerIdVal calleeIdVal calleeRole meetingId chimeId fullMeeting,
    camMicReady =>
      afterChimeMeeting path callerIdVal calleeIdVal calleeRole meetingId chimeId
        fullMeeting
  | awaitAddAttendee who args, fetched r =>
      match joinChimeMeeting_finish args r with
      | Ok joined => emit (join_event args joined) ;; joinThen who args
      | Throw message => joinCatch who message
      end
  | _, _ => ret (Some t)
  end.

(* handleSocketMeetingStatus only logs and updates a status line. *)
Definition handleSocketMeetingStatus (body : jsval) : M (option Task) := ret None.

(* The listeners init() registers with SocketHandler, by flag. *)
Definition onSocketMessage (flag : string) (body : jsval) : M (option Task) :=
  if String.eqb flag FLAGS.CALL_INCOMING then handleSocketIncomingCall body
  else if String.eqb flag FLAGS.CALL_INITIATE then handleSocketIncomingCall body
  else if String.eqb flag FLAGS.CALL_ACCEPTED then handleSocketAccepted body
  else if String.eqb flag FLAGS.CALL_DECLINED then handleSocketDeclined body
  else if String.eqb flag FLAGS.CALL_TIMEOUT then handleSocketTimeout body
  else if String.eqb flag FLAGS.CALL_CANCELLED then handleSocketCancelled body
  else if String.eqb flag FLAGS.SELF_STOP_RING then handleSocketSelfStopRinging body
  else if String.eqb flag FLAGS.MEETING_READY then handleSocketMeetingReady body
  else if String.eqb flag FLAGS.MEETING_PROBLEM then handleSocketMeetingProblem body
  else if String.eqb flag "meeting:status" then handleSocketMeetingStatus body
  else ret None.

(* ====================================================================== *)
(* Definitions used to state the properties                               *)
(* ====================================================================== *)

(* What a run leaves behind. *)
Definition result_of {A} (r : A * State * list effect) : A := r.1.1.
Definition state_of {A} (r : A * State * list effect) : State := r.1.2.
Definition trace_of {A} (r : A * State * list effect) : list effect := r.2.

(* The payloads sent over the socket under one flag, in order. *)
Definition sent (flag : string) (trace : list effect) : list jsval :=
  omap (fun e => match e with
                 | sendSocketMessage f payload _ =>
                     if String.eqb f flag then Some payload else None
                 | _ => None
                 end) trace.

(* Every payload handed to SocketHandler.sendSocketMessage. *)
Definition all_sent (trace : list effect) : list (string * jsval) :=
  omap (fun e => match e with
                 | sendSocketMessage f payload _ => Some (f, payload)
                 | _ => None
                 end) trace.

(* Runs the chain a handler started, if it started one. *)
Definition continue (started : option Task) (c : Completion) : M (option Task) :=
  match started with
  | Some t => resume t c
  | None => ret None
  end.




(* The state clearCallerRingTimer and clearCalleeRingTimer leave. *)
Definition cleared_caller (st : State) : State :=
  match _callerRingTimerId st with
  | Some id =>
      set_callerRingTimerId None
        (set_timers (delete id (timers st)) (nextTimerId st) st)
  | None => st
  end.

Definition cleared_callee (st : State) : State :=
  match _calleeRingTimerId st with
  | Some id =>
      set_calleeRingTimerId None
        (set_timers (delete id (timers st)) (nextTimerId st) st)
  | None => st
  end.

(* What no step of a provisioning chain or of a join does: touch a ring
   timer, or raise the guard. *)
Definition chain_frame (st st' : State) : Prop :=
  _calleeRingTimerId st' = _calleeRingTimerId st
  /\ _callerRingTimerId st' = _callerRingTimerId st
  /\ timers st' = timers st
  /\ (_inCallOrConnecting st' = true -> _inCallOrConnecting st = true).

(* An Initiate as the start handlers send it: instant call type and the
   caller id, callee id and role filled in. *)
Definition is_initiate (body : jsval) : bool :=
  truthy body
  && is_str (prop body "callType") TYPE_INSTANT
  && negb (missing (prop body "callerId"))
  && negb (missing (prop body "calleeId"))
  && negb (missing (prop body "role")).

(* The Declined message of the busy guard. *)
Definition auto_decline (body : jsval) : jsval :=
  VObj [("to", prop body "callerId");
        ("callerId", prop body "callerId");
        ("calleeId", prop body "calleeId");
        ("reason", VStr "in_another_call")].


(* Some field of the list is undefined or the empty string. *)
Definition lacks (fields : list string) (body : jsval) : bool :=
  existsb (fun k => missing (prop body k)) fields.

(* What the listener registered for a flag refuses, for the four flags
   whose listener checks its body at all. *)
Definition refused (flag : string) (body : jsval) : option bool :=
  if String.eqb flag FLAGS.CALL_INCOMING || String.eqb flag FLAGS.CALL_INITIATE then
    Some (negb (truthy body)
          || negb (is_str (prop body "callType") TYPE_INSTANT)
          || lacks ["callerId"; "calleeId"; "role"] body)
  else if String.eqb flag FLAGS.CALL_ACCEPTED then
    Some (negb (truthy body) || lacks ["callerId"; "calleeId"] body)
  else if String.eqb flag FLAGS.CALL_DECLINED then
    Some (negb (truthy body) || lacks ["callerId"; "calleeId"; "reason"] body)
  else if String.eqb flag FLAGS.MEETING_READY then
    Some (negb (truthy body)
          || lacks ["meetingId"; "callerId"; "calleeId"; "callerRole"; "calleeRole"] body)
  else None.

(* The MeetingProblem message of the callee chain. *)
Definition meeting_problem (callerIdVal calleeIdVal : jsval) (message : string) : jsval :=
  VObj [("to", callerIdVal); ("meetingId", VStr "unknown");
        ("callerId", callerIdVal); ("calleeId", calleeIdVal);
        ("message", VStr (message_or_unknown message))].

(* The trace announce_accept leaves. *)
Definition accept_trace (callerIdVal calleeIdVal : jsval) : list effect :=
  [sendSocketMessage FLAGS.SELF_STOP_RING
     (VObj [("to", calleeIdVal); ("calleeId", calleeIdVal)]) (Some SCHEMA.selfStop);
   sendSocketMessage FLAGS.CALL_ACCEPTED
     (VObj [("to", callerIdVal); ("callerId", callerIdVal); ("calleeId", calleeIdVal)])
     (Some SCHEMA.accept);
   dispatchEvent FLAGS.CALL_ACCEPTED
     (VObj [("callerId", callerIdVal); ("calleeId", calleeIdVal)]);
   sendSocketMessage "meeting:status"
     (VObj [("to", callerIdVal); ("status", VStr "creating_db");
            ("message", VStr "Creating meeting in database...")]) None;
   fetch (_scyllaDatabaseEndpoint ++ "createInstantMeeting")
     (VObj [("initiatorId", calleeIdVal)])].

(* The detail of an app:call:accept event that the handler takes. *)
Definition is_accept (d : jsval) : bool :=
  truthy d
  && is_str (prop d "callType") TYPE_INSTANT
  && negb (missing (prop d "callerId"))
  && negb (missing (prop d "calleeId"))
  && negb (missing (prop d "role")).









(* The attendee joined with: the decoded envelope's, or the one built
   from the response's attendeeId. *)
Definition attendee_for (data : jsval) (decoded : option jsval) (userId : jsval)
    : jsval :=
  let fallback := VObj [("AttendeeId", prop data "attendeeId");
                        ("ExternalUserId", userId)] in
  if truthy (prop data "meetingInfo") then
    match decoded with
    | Some meetingInfoDecoded =>
        match get meetingInfoDecoded "MediaPlacement" with
        | Some _ =>
            if truthy (prop meetingInfoDecoded "Attendee")
            then prop meetingInfoDecoded "Attendee" else fallback
        | None => fallback
        end
    | None => fallback
    end
  else fallback.



(* ---------------------------------------------------------------------- *)
(* Scenario data                                                          *)
(* ---------------------------------------------------------------------- *)

Module Scenario.
Definition initiate (caller callee : string) : jsval :=
  VObj [("to", VStr callee); ("callType", VStr TYPE_INSTANT);
        ("callerId", VStr caller); ("calleeId", VStr callee);
        ("role", VStr "host")].
Definition accepted (caller callee : string) : jsval :=
  VObj [("to", VStr caller); ("callerId", VStr caller); ("calleeId", VStr callee)].
Definition start (caller callee : string) : jsval :=
  VObj [("detail",
         VObj [("callerId", VStr caller); ("calleeId", VStr callee);
               ("role", VStr "host"); ("callType", VStr TYPE_INSTANT)])].
Definition accept (caller callee : string) : jsval :=
  VObj [("detail",
         VObj [("callerId", VStr caller); ("calleeId", VStr callee);
               ("role", VStr "guest"); ("callType", VStr TYPE_INSTANT)])].
Definition meetingReady (caller callee : string) : jsval :=
  VObj [("to", VStr caller); ("meetingId", VStr "db-1");
        ("callerId", VStr caller); ("calleeId", VStr callee);
        ("callerRole", VStr "host"); ("calleeRole", VStr "guest");
        ("chimeMeetingId", VStr "chime-1"); ("dbMeetingId", VStr "db-1")].

(* bob is rung by alice *)
Definition ringing_callee : State :=
  state_of (handleSocketIncomingCall (initiate "alice" "bob") initial).

(* alice has called bob *)
Definition ringing_caller : State :=
  state_of (handleAppStartCall (start "alice" "bob") initial).

(* alice has called bob, and carol's call reaches alice meanwhile *)
Definition ringing_both : State :=
  state_of (handleSocketIncomingCall (initiate "carol" "alice") ringing_caller).

(* ... and bob's acceptance then arrives *)
Definition accepted_caller : State :=
  state_of (handleSocketAccepted (accepted "alice" "bob") ringing_both).



(* an addAttendee response whose meeting sits in its meeting field *)
Definition placement : jsval := VObj [("AudioHostUrl", VStr "wss://audio")].
Definition response_meeting : jsval :=
  VObj [("MeetingId", VStr "chime-1"); ("MediaPlacement", placement)].
Definition addAttendee_data : jsval :=
  VObj [("success", VBool true); ("attendeeId", VStr "att-1");
        ("meeting", response_meeting)].
Definition addAttendee_response : Response :=
  mkResponse true 200 "OK" "" (Ok addAttendee_data) None.
Definition caller_join_args : Join.t :=
  Join.mk (VStr "db-1") (VStr "alice") (VStr "host") (VStr "chime-1")
    (VStr "video") VNull.
End Scenario.

(* ====================================================================== *)
(* The remaining local actions, the dispatch of events, the permission    *)
(* wait                                                                   *)
(* ====================================================================== *)

Definition set_userData (currentUser targetUser : jsval) (st : State) : State :=
  mkState (CALLEE_MANUAL_JOIN_ENABLED st) (_els st) (_calleeRingTimerId st)
    (_callerRingTimerId st) (_inCallOrConnecting st) (_pendingCalleeJoin st)
    (_currentSide st) (_invite st) currentUser targetUser (timers st)
    (nextTimerId st).

Definition setUserData (currentUser targetUser : jsval) : M (option Task) :=
  modify (set_userData currentUser targetUser) ;;
  ret None.

(* The tail shared by handleRejectClick and handleAppRejectCall. *)
Definition announce_reject (callerIdVal calleeIdVal reasonVal : jsval)
    : M (option Task) :=
  emit (sendSocketMessage FLAGS.SELF_STOP_RING
          (VObj [("to", calleeIdVal); ("calleeId", calleeIdVal)])
          (Some SCHEMA.selfStop)) ;;
  emit (sendSocketMessage FLAGS.CALL_DECLINED
          (VObj [("to", callerIdVal); ("callerId", callerIdVal);
                 ("calleeId", calleeIdVal); ("reason", reasonVal)])
          (Some SCHEMA.decline)) ;;
  emit (dispatchEvent FLAGS.CALL_DECLINED
          (VObj [("callerId", callerIdVal); ("calleeId", calleeIdVal);
                 ("reason", reasonVal)])) ;;
  emit (dipatchUI "callee:rejected" "none"
          (VObj [("callerId", callerIdVal); ("calleeId", calleeIdVal);
                 ("reason", reasonVal)])) ;;
  ret None.

Definition handleRejectClick : M (option Task) :=
  els <- gets _els ;;
  match Els.currentUserId els, Els.targetUserId els, Els.callType els,
        Els.rejectReason els with
  | Some calleeIdVal, Some callerIdVal, Some callTypeVal, Some reasonVal =>
      if negb (is_str callTypeVal TYPE_INSTANT) then ret None
      else if missing callerIdVal then ret None
      else if missing calleeIdVal then ret None
      else if missing reasonVal then ret None
      else announce_reject callerIdVal calleeIdVal reasonVal
  | _, _, _, _ => ret None
  end.

Definition handleAppRejectCall (e : jsval) : M (option Task) :=
  let d := detail_of e in
  if negb (truthy d) then ret None
  else
    let callerId := prop d "callerId" in
    let calleeId := prop d "calleeId" in
    let reason := prop d "reason" in
    let callType := prop d "callType" in
    if negb (is_str callType TYPE_INSTANT) then ret None
    else if missing callerId then ret None
    else if missing calleeId then ret None
    else if missing reason then ret None
    else announce_reject callerId calleeId reason.

(* The tail shared by handleCancelClick and handleAppCancelCall. *)
Definition announce_cancel (callerIdVal calleeIdVal : jsval) : M (option Task) :=
  emit (sendSocketMessage FLAGS.CALL_CANCELLED
          (VObj [("to", calleeIdVal); ("callerId", callerIdVal);
                 ("calleeId", calleeIdVal)])
          (Some SCHEMA.cancel)) ;;
  emit (dispatchEvent FLAGS.CALL_CANCELLED
          (VObj [("callerId", callerIdVal); ("calleeId", calleeIdVal)])) ;;
  emit (dipatchUI "caller:terminated" "cancelled"
          (VObj [("callerId", callerIdVal); ("calleeId", calleeIdVal)])) ;;
  ret None.

Definition handleCancelClick : M (option Task) :=
  els <- gets _els ;;
  match Els.currentUserId els, Els.targetUserId els, Els.callType els with
  | Some callerIdVal, Some calleeIdVal, Some callTypeVal =>
      if negb (is_str callTypeVal TYPE_INSTANT) then ret None
      else if missing callerIdVal then ret None
      else if missing calleeIdVal then ret None
      else announce_cancel callerIdVal calleeIdVal
  | _, _, _ => ret None
  end.

Definition handleAppCancelCall (e : jsval) : M (option Task) :=
  let d := detail_of e in
  if negb (truthy d) then ret None
  else
    let callerId := prop d "callerId" in
    let calleeId := prop d "calleeId" in
    let callType := prop d "callType" in
    if negb (is_str callType TYPE_INSTANT) then ret None
    else if missing callerId then ret None
    else if missing calleeId then ret None
    else announce_cancel callerId calleeId.

(* Everything that can happen to the class once init() has wired it: a
   click on one of its buttons, one of the four app events, a socket
   message, a timeout falling due, an awaited request settling, and a
   call of setUserData. *)
Inductive Button : Type :=
| btnStart | btnStartAudio | btnStartVideo | btnAccept | btnReject | btnCancel
| linkJoinMeeting.

Inductive Event : Type :=
| click (button : Button)
| appEvent (name : string) (e : jsval)
| socketMessage (flag : string) (body : jsval)
| timerFires (id : nat)
| settles (t : Task) (c : Completion)
| userData (currentUser targetUser : jsval).

Definition onClick (button : Button) : M (option Task) :=
  match button with
  | btnStart => handleStartInstantCallClick
  | btnStartAudio => handleStartAudioCallClick
  | btnStartVideo => handleStartVideoCallClick
  | btnAccept => handleAcceptClick
  | btnReject => handleRejectClick
  | btnCancel => handleCancelClick
  | linkJoinMeeting => joinMeetingButtonClick
  end.

Definition onAppEvent (name : string) (e : jsval) : M (option Task) :=
  if String.eqb name "app:call:start" then handleAppStartCall e
  else if String.eqb name "app:call:accept" then handleAppAcceptCall e
  else if String.eqb name "app:call:reject" then handleAppRejectCall e
  else if String.eqb name "app:call:cancel" then handleAppCancelCall e
  else ret None.

Definition dispatch (ev : Event) : M (option Task) :=
  match ev with
  | click button => onClick button
  | appEvent name e => onAppEvent name e
  | socketMessage flag body => onSocketMessage flag body
  | timerFires id => fireTimer id ;; ret None
  | settles t c => resume t c
  | userData currentUser targetUser => setUserData currentUser targetUser
  end.

(* The state after a sequence of events, and all that was emitted. *)
Fixpoint run_events (evs : list Event) (st : State) : State * list effect :=
  match evs with
  | [] => (st, [])
  | ev :: evs' =>
      let '(_, st1, trace1) := dispatch ev st in
      let '(st2, trace2) := run_events evs' st1 in
      (st2, (trace1 ++ trace2)%list)
  end.

(* ---------------------------------------------------------------------- *)
(* ensureCamMicReady                                                      *)
(* ---------------------------------------------------------------------- *)

Module CamMic.

(* What the promise executor and its two callbacks do, in order. *)
Inductive action : Type :=
(* window.callMode = mode *)
| setCallMode (mode : string)
(* document.dispatchEvent(new CustomEvent("chime-ui::state", ...)) *)
| uiState (state substate : string)
(* CamMicPermissionsUtility.checkPermissions() *)
| checkPermissions
(* CamMicPermissionsUtility.emit(name) *)
| request (name : string)
(* window.addEventListener("CamMic:Permissions:Checked", onChecked) *)
| addListener
(* window.removeEventListener("CamMic:Permissions:Checked", onChecked) *)
| removeListener
(* resolve(true) *)
| resolve.

(* const requiresCamera = callMode !== "audio" *)
Definition requiresCamera (callMode : jsval) : bool := negb (is_str callMode "audio").

Definition isSatisfied (callMode camera microphone : jsval) : bool :=
  let camOk := negb (requiresCamera callMode) || is_str camera "granted" in
  let micOk := is_str microphone "granted" in
  camOk && micOk.

(* const side = CallHandler._currentSide || "callee" *)
Definition side_of (currentSide : jsval) : jsval := js_or currentSide (VStr "callee").

Definition acceptedState (currentSide : jsval) : string :=
  if is_str (side_of currentSide) "caller" then "caller:callAccepted"
  else "callee:callAccepted".

Definition permissionState (currentSide : jsval) : string :=
  if is_str (side_of currentSide) "caller" then "caller:waitingForCamMicPermissions"
  else "callee:waitingForCamMicPermissions".

(* The executor, up to the listener being registered. *)
Definition start (callMode currentSide : jsval) : list action :=
  [setCallMode (if requiresCamera callMode then "videoCall" else "audioOnlyCall");
   uiState (acceptedState currentSide) "none";
   checkPermissions;
   addListener].

(* proceedRequestIfNeeded, run on the result of the first check *)
Definition proceedRequestIfNeeded (callMode currentSide camera microphone : jsval)
    : list action :=
  if isSatisfied callMode camera microphone then [resolve]
  else
    [uiState (permissionState currentSide) "";
     request (if requiresCamera callMode then "CamMic:Request:Both"
              else "CamMic:Request:Microphone")].

(* v?.k *)
Definition opt_prop (v : jsval) (k : string) : jsval :=
  match v with
  | VUndefined | VNull => VUndefined
  | _ => prop v k
  end.

(* onChecked, run on every CamMic:Permissions:Checked event while the
   listener is registered *)
Definition onChecked (callMode currentSide : jsval) (ev : jsval) : list action :=
  let cam := js_or (opt_prop (prop ev "detail") "camera") (VStr "error") in
  let mic := js_or (opt_prop (prop ev "detail") "microphone") (VStr "error") in
  if isSatisfied callMode cam mic then
    [removeListener; uiState (acceptedState currentSide) "none"; resolve]
  else [].

(* The listener is registered by start and removed by the first event
   that satisfies it; events reaching a removed listener do nothing. *)
Fixpoint onEvents (callMode currentSide : jsval) (evs : list jsval) : list action :=
  match evs with
  | [] => []
  | ev :: evs' =>
      match onChecked callMode currentSide ev with
      | [] => onEvents callMode currentSide evs'
      | actions => actions
      end
  end.

End CamMic.

(* ---------------------------------------------------------------------- *)
(* Definitions used to state further properties                           *)
(* ---------------------------------------------------------------------- *)

(* Every armed timeout is one the class still holds the handle of: a
   caller-side callback under _callerRingTimerId, a callee-side one under
   _calleeRingTimerId; and its handle is one setTimeout has given out. *)
Definition timers_owned (st : State) : Prop :=
  forall id cb, timers st !! id = Some cb ->
    id < nextTimerId st
    /\ match cb with
       | callerRingTimeout _ _ => _callerRingTimerId st = Some id
       | calleeRingTimeout => _calleeRingTimerId st = Some id
       end.

(* The part of the state the timers live in. *)
Definition timer_view (st : State)
    : gmap nat TimerCallback * nat * option nat * option nat :=
  (timers st, nextTimerId st, _callerRingTimerId st, _calleeRingTimerId st).

(* The detail of an app:call:start event that the handler takes. *)
Definition is_start (d : jsval) : bool :=
  truthy d
  && is_str (prop d "callType") TYPE_INSTANT
  && negb (missing (prop d "callerId"))
  && negb (missing (prop d "calleeId"))
  && negb (missing (prop d "role")).

(* The detail of an app:call:reject event that the handler takes. *)
Definition is_reject (d : jsval) : bool :=
  truthy d
  && is_str (prop d "callType") TYPE_INSTANT
  && negb (missing (prop d "callerId"))
  && negb (missing (prop d "calleeId"))
  && negb (missing (prop d "reason")).

(* The detail of an app:call:cancel event that the handler takes. *)
Definition is_cancel (d : jsval) : bool :=
  truthy d
  && is_str (prop d "callType") TYPE_INSTANT
  && negb (missing (prop d "callerId"))
  && negb (missing (prop d "calleeId")).


(* What the two cancel handlers send when they take their input. *)
Definition cancel_trace (callerIdVal calleeIdVal : jsval) : list effect :=
  [sendSocketMessage FLAGS.CALL_CANCELLED
     (VObj [("to", calleeIdVal); ("callerId", callerIdVal); ("calleeId", calleeIdVal)])
     (Some SCHEMA.cancel);
   dispatchEvent FLAGS.CALL_CANCELLED
     (VObj [("callerId", callerIdVal); ("calleeId", calleeIdVal)]);
   dipatchUI "caller:terminated" "cancelled"
     (VObj [("callerId", callerIdVal); ("calleeId", calleeIdVal)])].



(* The parties of the stored invitation: every field of _invite but the
   media type. *)
Definition invite_parties (st : State) : jsval * jsval * jsval * jsval * jsval :=
  (Invite.callerId (_invite st), Invite.calleeId (_invite st),
   Invite.callerRole (_invite st), Invite.callerData (_invite st),
   Invite.calleeData (_invite st)).

(* An inbound Initiate, under either of the two flags it is listened for. *)
Definition is_incoming (ev : Event) : bool :=
  match ev with
  | socketMessage flag _ =>
      String.eqb flag FLAGS.CALL_INCOMING || String.eqb flag FLAGS.CALL_INITIATE
  | _ => false
  end.

(* The Accept button and an inbound Accepted. *)
Definition raises_guard (ev : Event) : bool :=
  match ev with
  | click btnAccept => true
  | socketMessage flag _ => String.eqb flag FLAGS.CALL_ACCEPTED
  | _ => false
  end.

Definition is_userData (ev : Event) : bool :=
  match ev with userData _ _ => true | _ => false end.

(* What an event leaves alone: the page's inputs and the join mode
   always; the parties of the invitation unless it is an inbound
   Initiate; the user data unless it is a call of setUserData; and it
   raises the guard only if it is the Accept button or an inbound
   Accepted. *)
Definition leaves (ev : Event) (st st' : State) : Prop :=
  _els st' = _els st
  /\ CALLEE_MANUAL_JOIN_ENABLED st' = CALLEE_MANUAL_JOIN_ENABLED st
  /\ (is_incoming ev = false -> invite_parties st' = invite_parties st)
  /\ (is_userData ev = false ->
      _currentUserData st' = _currentUserData st
      /\ _targetUserData st' = _targetUserData st)
  /\ (raises_guard ev = false ->
      _inCallOrConnecting st' = true -> _inCallOrConnecting st = true).

(* No event of the list is an inbound Initiate. *)
Definition no_incoming (evs : list Event) : Prop :=
  Forall (fun ev => is_incoming ev = false) evs.

(* The fields a handler other than the named ones leaves as they were,
   and the guard not raised. *)
Definition untouched (st st' : State) : Prop :=
  _els st' = _els st
  /\ CALLEE_MANUAL_JOIN_ENABLED st' = CALLEE_MANUAL_JOIN_ENABLED st
  /\ invite_parties st' = invite_parties st
  /\ _currentUserData st' = _currentUserData st
  /\ _targetUserData st' = _targetUserData st
  /\ (_inCallOrConnecting st' = true -> _inCallOrConnecting st = true).

(* The message kinds the class hands to SocketHandler.sendSocketMessage,
   each with the schema it is sent under; a status message has none. *)
Definition protocol : list (string * option (list string)) :=
  [(FLAGS.CALL_INITIATE, Some SCHEMA.initiate);
   (FLAGS.CALL_ACCEPTED, Some SCHEMA.accept);
   (FLAGS.CALL_DECLINED, Some SCHEMA.decline);
   (FLAGS.CALL_CANCELLED, Some SCHEMA.cancel);
   (FLAGS.CALL_TIMEOUT, Some SCHEMA.timeout);
   (FLAGS.SELF_STOP_RING, Some SCHEMA.selfStop);
   (FLAGS.MEETING_READY, Some SCHEMA.meetingReady);
   (FLAGS.MEETING_PROBLEM, Some SCHEMA.meetingProblem);
   ("meeting:status", None)].

(* The payload is an object literal with each of the fields as a key. *)
Definition has_fields (fields : list string) (payload : jsval) : bool :=
  match payload with
  | VObj kvs => forallb (fun k => existsb (fun kv => String.eqb kv.1 k) kvs) fields
  | _ => false
  end.

(* A message is of a kind of the protocol, names its addressee and has
   every field of its schema; any other effect conforms. *)
Definition conforms (e : effect) : Prop :=
  match e with
  | sendSocketMessage flag payload schema =>
      (flag, schema) ∈ protocol
      /\ has_fields ("to" :: default [] schema) payload = true
  | _ => True
  end.

(* The detail an app event must carry for its handler to take it. *)
Definition app_event_taken (name : string) (d : jsval) : bool :=
  if String.eqb name "app:call:start" then is_start d
  else if String.eqb name "app:call:accept" then is_accept d
  else if String.eqb name "app:call:reject" then is_reject d
  else if String.eqb name "app:call:cancel" then is_cancel d
  else false.

(* The call-type input is there and holds the instant call type. *)
Definition instant_selected (st : State) : bool :=
  match Els.callType (_els st) with
  | Some v => is_str v TYPE_INSTANT
  | None => false
  end.

(* The page with another call-type input. *)
Definition with_callType (v : option jsval) (st : State) : State :=
  set_els (Els.mk v (Els.role (_els st)) (Els.currentUserId (_els st))
             (Els.targetUserId (_els st)) (Els.rejectReason (_els st))) st.

(* What a CamMic:Permissions:Checked event reports, as onChecked reads it. *)
Definition reported (callMode ev : jsval) : bool :=
  CamMic.isSatisfied callMode
    (js_or (CamMic.opt_prop (prop ev "detail") "camera") (VStr "error"))
    (js_or (CamMic.opt_prop (prop ev "detail") "microphone") (VStr "error")).

(* All that one call of ensureCamMicReady does: the executor, the
   callback of the first check, the listener on the events that follow. *)
Definition ensureCamMicReady_actions (callMode currentSide camera microphone : jsval)
    (evs : list jsval) : list CamMic.action :=
  (CamMic.start callMode currentSide
   ++ CamMic.proceedRequestIfNeeded callMode currentSide camera microphone
   ++ CamMic.onEvents callMode currentSide evs)%list.

(* ---------------------------------------------------------------------- *)
(* Further instances                                                      *)
(* ---------------------------------------------------------------------- *)

Module Example.
Definition cancel (caller callee : string) : jsval :=
  VObj [("detail",
         VObj [("callerId", VStr caller); ("calleeId", VStr callee);
               ("callType", VStr TYPE_INSTANT)])].

(* a page whose inputs are filled in *)
Definition page (user target : string) : State :=
  set_els (Els.mk (Some (VStr TYPE_INSTANT)) (Some (VStr "host"))
             (Some (VStr user)) (Some (VStr target)) (Some (VStr "busy")))
    initial.


(* alice's page after setUserData *)
Definition alice_page : State :=
  state_of (setUserData (VObj [("name", VStr "Alice")]) (VObj [("name", VStr "Bob")])
              (page "alice" "bob")).
Definition audio_initiate : jsval :=
  VObj [("to", VStr "bob"); ("callType", VStr TYPE_INSTANT);
        ("callerId", VStr "alice"); ("calleeId", VStr "bob");
        ("role", VStr "host"); ("mediaType", VStr "audio");
        ("callerData", VObj [("name", VStr "Alice")]);
        ("calleeData", VObj [("name", VStr "Bob")])].

Definition chimeMeeting_data : jsval :=
  VObj [("meetingId", VStr "chime-1"); ("meeting", Scenario.response_meeting)].
Definition chimeMeeting_response : Response :=
  mkResponse true 200 "OK" "" (Ok chimeMeeting_data) None.
(* the same body under an HTTP error *)
Definition server_error : Response :=
  mkResponse false 500 "Internal Server Error" "" (Ok chimeMeeting_data) None.

(* alice calls bob while carol's call reaches alice *)
Definition glare : list Event :=
  [appEvent "app:call:start" (Scenario.start "alice" "bob");
   socketMessage FLAGS.CALL_INITIATE (Scenario.initiate "carol" "alice")].
(* alice cancels, and bob's own ring timeout falls due *)
Definition cancelled : list Event :=
  [socketMessage FLAGS.CALL_CANCELLED (Scenario.accepted "alice" "bob");
   timerFires 1].

(* the detail of the join event of alice's join *)
Definition join_detail : jsval :=
  VObj [("meetingInfo", VObj [("Meeting", Scenario.response_meeting)]);
        ("attendeeInfo",
         VObj [("Attendee", VObj [("AttendeeId", VStr "att-1");
                                  ("ExternalUserId", VStr "alice")])]);
        ("userId", VStr "alice"); ("role", VStr "host");
        ("callType", VStr "video")].
End Example.

(* ====================================================================== *)
(* Properties                                                             *)
(* ====================================================================== *)

Lemma clearCallerRingTimer_run st :
  clearCallerRingTimer st = (tt, cleared_caller st, []).
Proof.
  unfold clearCallerRingTimer, cleared_caller, clearTimeout. cbn.
  by destruct (_callerRingTimerId st).
Qed.

Lemma clearCalleeRingTimer_run st :
  clearCalleeRingTimer st = (tt, cleared_callee st, []).
Proof.
  unfold clearCalleeRingTimer, cleared_callee, clearTimeout. cbn.
  by destruct (_calleeRingTimerId st).
Qed.

Lemma bind_clearCaller {B} (k : unit -> M B) st :
  bind clearCallerRingTimer k st = k tt (cleared_caller st).
Proof.
  unfold bind. rewrite clearCallerRingTimer_run.
  by destruct (k tt (cleared_caller st)) as [[b st2] trace2].
Qed.

Lemma bind_clearCallee {B} (k : unit -> M B) st :
  bind clearCalleeRingTimer k st = k tt (cleared_callee st).
Proof.
  unfold bind. rewrite clearCalleeRingTimer_run.
  by destruct (k tt (cleared_callee st)) as [[b st2] trace2].
Qed.

(* Runs a handler applied to a state as far as it computes. *)
Ltac run :=
  unfold result_of, state_of, trace_of; cbn;
  repeat (first [rewrite bind_clearCaller | rewrite bind_clearCallee]; cbn).

Lemma cleared_caller_fields st :
  _callerRingTimerId (cleared_caller st) = None
  /\ _calleeRingTimerId (cleared_caller st) = _calleeRingTimerId st
  /\ _inCallOrConnecting (cleared_caller st) = _inCallOrConnecting st
  /\ _invite (cleared_caller st) = _invite st
  /\ _currentSide (cleared_caller st) = _currentSide st
  /\ _pendingCalleeJoin (cleared_caller st) = _pendingCalleeJoin st.
Proof. unfold cleared_caller. by destruct (_callerRingTimerId st) eqn:E. Qed.

Lemma cleared_callee_fields st :
  _calleeRingTimerId (cleared_callee st) = None
  /\ _callerRingTimerId (cleared_callee st) = _callerRingTimerId st
  /\ _inCallOrConnecting (cleared_callee st) = _inCallOrConnecting st
  /\ _invite (cleared_callee st) = _invite st
  /\ _currentSide (cleared_callee st) = _currentSide st
  /\ _pendingCalleeJoin (cleared_callee st) = _pendingCalleeJoin st.
Proof. unfold cleared_callee. by destruct (_calleeRingTimerId st) eqn:E. Qed.

Lemma cleared_caller_next st : nextTimerId (cleared_caller st) = nextTimerId st.
Proof. unfold cleared_caller. by destruct (_callerRingTimerId st). Qed.

Lemma cleared_callee_next st : nextTimerId (cleared_callee st) = nextTimerId st.
Proof. unfold cleared_callee. by destruct (_calleeRingTimerId st). Qed.

(* A handle that was cleared is gone from the browser's table. *)
Lemma cleared_caller_disarms st id :
  _callerRingTimerId st = Some id -> timers (cleared_caller st) !! id = None.
Proof. intros E. unfold cleared_caller. rewrite E. cbn. apply lookup_delete_eq. Qed.


Lemma cleared_callee_idem st : cleared_callee (cleared_callee st) = cleared_callee st.
Proof.
  unfold cleared_callee at 1.
  by destruct (cleared_callee_fields st) as (-> & _).
Qed.

(* ---------------------------------------------------------------------- *)
(* Busy guard                                                             *)
(* ---------------------------------------------------------------------- *)

Lemma is_initiate_guards body :
  is_initiate body = true ->
  truthy body = true
  /\ is_str (prop body "callType") TYPE_INSTANT = true
  /\ missing (prop body "callerId") = false
  /\ missing (prop body "calleeId") = false
  /\ missing (prop body "role") = false.
Proof.
  unfold is_initiate. rewrite !andb_true_iff, !negb_true_iff. tauto.
Qed.

(* Whatever arrives on call:initiate while the guard is up, the state is
   left as it was and no chain is started. *)
Lemma busy_guard_frame st body :
  _inCallOrConnecting st = true ->
  state_of (handleSocketIncomingCall body st) = st
  /\ result_of (handleSocketIncomingCall body st) = None.
Proof.
  intros Hbusy. unfold handleSocketIncomingCall.
  repeat (match goal with |- context [if ?c then _ else _] => destruct c end;
          [by run |]).
  run. rewrite Hbusy. by run.
Qed.

(* The trace of the shared tail of the start handlers has no message. *)
Lemma start_ringing_sends_nothing st callerIdVal calleeIdVal ui :
  all_sent (trace_of (start_ringing callerIdVal calleeIdVal ui st)) = [].
Proof. unfold start_ringing. by run. Qed.

Lemma sent_no_messages flag trace : all_sent trace = [] -> sent flag trace = [].
Proof.
  induction trace as [|e trace IH]; [done|].
  destruct e as [f payload schema| | | |]; cbn; try done; apply IH.
Qed.

Lemma start_ringing_sent st flag callerIdVal calleeIdVal ui :
  sent flag (trace_of (start_ringing callerIdVal calleeIdVal ui st)) = [].
Proof. apply sent_no_messages, start_ringing_sends_nothing. Qed.

(* The Initiate that a start handler sends is one the receiver takes:
   the app event, *)
Lemma app_start_sends_initiate st e payload :
  payload ∈ sent FLAGS.CALL_INITIATE (trace_of (handleAppStartCall e st)) ->
  is_initiate payload = true.
Proof.
  unfold handleAppStartCall.
  destruct (truthy (detail_of e)) eqn:Hd; [|run; by intros ?%elem_of_nil].
  cbn [negb].
  destruct (is_str (prop (detail_of e) "callType") TYPE_INSTANT) eqn:Ht;
    [|run; by intros ?%elem_of_nil].
  cbn [negb].
  destruct (missing (prop (detail_of e) "callerId")) eqn:H1;
    [run; by intros ?%elem_of_nil|].
  destruct (missing (prop (detail_of e) "calleeId")) eqn:H2;
    [run; by intros ?%elem_of_nil|].
  destruct (missing (prop (detail_of e) "role")) eqn:H3;
    [run; by intros ?%elem_of_nil|].
  unfold trace_of, bind, emit. cbn -[start_ringing sent].
  destruct (start_ringing _ _ _ st) as [[o st'] trace] eqn:E.
  pose proof (start_ringing_sent st FLAGS.CALL_INITIATE
                (prop (detail_of e) "callerId") (prop (detail_of e) "calleeId")
                (VObj [("callerId", prop (detail_of e) "callerId");
                       ("calleeId", prop (detail_of e) "calleeId");
                       ("role", prop (detail_of e) "role")])) as Hs.
  rewrite E in Hs. cbn in Hs |- *. rewrite Hs.
  intros ->%list_elem_of_singleton.
  unfold is_initiate. cbn. by rewrite Ht, H1, H2, H3.
Qed.

(* the Start Instant Call button, *)
Lemma instant_click_sends_initiate st payload :
  payload ∈ sent FLAGS.CALL_INITIATE (trace_of (handleStartInstantCallClick st)) ->
  is_initiate payload = true.
Proof.
  unfold handleStartInstantCallClick, trace_of, bind, gets. cbn -[start_ringing sent].
  destruct (Els.callType (_els st)) as [callTypeVal|]; [|by intros ?%elem_of_nil].
  destruct (Els.role (_els st)) as [callerRole|]; [|by intros ?%elem_of_nil].
  destruct (Els.currentUserId (_els st)) as [callerIdVal|]; [|by intros ?%elem_of_nil].
  destruct (Els.targetUserId (_els st)) as [calleeIdVal|]; [|by intros ?%elem_of_nil].
  destruct (is_str callTypeVal TYPE_INSTANT) eqn:Ht; [|by intros ?%elem_of_nil].
  cbn [negb].
  destruct (missing callerIdVal) eqn:H1; [by intros ?%elem_of_nil|].
  destruct (missing calleeIdVal) eqn:H2; [by intros ?%elem_of_nil|].
  destruct (missing callerRole) eqn:H3; [by intros ?%elem_of_nil|].
  unfold emit. cbn -[start_ringing sent].
  destruct (start_ringing _ _ _ st) as [[o st'] trace] eqn:E.
  pose proof (start_ringing_sent st FLAGS.CALL_INITIATE callerIdVal calleeIdVal
                (VObj [("callerId", callerIdVal); ("calleeId", calleeIdVal);
                       ("role", callerRole)])) as Hs.
  rewrite E in Hs. cbn in Hs |- *. rewrite Hs.
  intros ->%list_elem_of_singleton.
  unfold is_initiate. cbn. by rewrite Ht, H1, H2, H3.
Qed.

(* and the audio and video buttons. *)
Lemma initiateCall_sends_initiate st mediaType payload :
  payload ∈ sent FLAGS.CALL_INITIATE (trace_of (_initiateCall mediaType st)) ->
  is_initiate payload = true.
Proof.
  unfold _initiateCall, trace_of, bind, gets. cbn -[start_ringing sent].
  destruct (Els.role (_els st)) as [callerRole|]; [|by intros ?%elem_of_nil].
  destruct (Els.currentUserId (_els st)) as [callerIdVal|]; [|by intros ?%elem_of_nil].
  destruct (Els.targetUserId (_els st)) as [calleeIdVal|]; [|by intros ?%elem_of_nil].
  destruct (missing callerIdVal) eqn:H1; [by intros ?%elem_of_nil|].
  destruct (missing calleeIdVal) eqn:H2; [by intros ?%elem_of_nil|].
  destruct (missing callerRole) eqn:H3; [by intros ?%elem_of_nil|].
  unfold emit, modify. cbn -[start_ringing sent].
  match goal with
  | |- context [start_ringing ?a ?b ?ui ?s] =>
      pose proof (start_ringing_sent s FLAGS.CALL_INITIATE a b ui) as Hs;
      destruct (start_ringing a b ui s) as [[o st'] trace] eqn:E
  end.
  cbn in Hs |- *. rewrite Hs.
  intros ->%list_elem_of_singleton.
  unfold is_initiate. cbn. by rewrite H1, H2, H3.
Qed.

(** C1: while _inCallOrConnecting is true, an inbound Initiate is answered
    with exactly one Declined message carrying reason "in_another_call",
    addressed to the inviter, and the state is left exactly as it was: the
    stored invite, both ring timer handles, _currentSide, the guard itself
    and the table of armed timers. *)
Theorem busy_guard_auto_declines st body :
  _inCallOrConnecting st = true ->
  is_initiate body = true ->
  handleSocketIncomingCall body st
  = (None, st,
     [sendSocketMessage FLAGS.CALL_DECLINED (auto_decline body) (Some SCHEMA.decline);
      dipatchUI "callee:terminated" "auto-declined"
        (VObj [("callerId", prop body "callerId");
               ("calleeId", prop body "calleeId");
               ("reason", VStr "in_another_call")])])
  /\ sent FLAGS.CALL_DECLINED (trace_of (handleSocketIncomingCall body st))
     = [auto_decline body]
  /\ all_sent (trace_of (handleSocketIncomingCall body st))
     = [(FLAGS.CALL_DECLINED, auto_decline body)]
  /\ prop (auto_decline body) "to" = prop body "callerId"
  /\ prop (auto_decline body) "reason" = VStr "in_another_call".
Proof.
  intros Hbusy (Hb & Ht & H1 & H2 & H3)%is_initiate_guards.
  unfold handleSocketIncomingCall.
  rewrite Hb, Ht, H1, H2, H3. run. rewrite Hbusy. run. done.
Qed.

(* ---------------------------------------------------------------------- *)
(* Ring timers                                                            *)
(* ---------------------------------------------------------------------- *)

(* A taken Initiate arms the callee timer with the empty callback. *)
Lemma incoming_arms_callee_timer st body :
  _inCallOrConnecting st = false ->
  is_initiate body = true ->
  let st' := state_of (handleSocketIncomingCall body st) in
  _calleeRingTimerId st' = Some (nextTimerId st)
  /\ timers st' !! nextTimerId st = Some calleeRingTimeout.
Proof.
  intros Hfree (Hb & Ht & H1 & H2 & H3)%is_initiate_guards.
  unfold handleSocketIncomingCall.
  rewrite Hb, Ht, H1, H2, H3. run. rewrite Hfree. run.
  rewrite cleared_callee_next. cbn.
  split; [done | apply lookup_insert_eq].
Qed.

(* When that callback runs nothing is sent or shown, and no field of the
   class changes; only the fired entry leaves the timer table. *)
Lemma callee_timer_callback_is_empty st id :
  timers st !! id = Some calleeRingTimeout ->
  fireTimer id st
  = (tt, set_timers (delete id (timers st)) (nextTimerId st) st, []).
Proof.
  intros Hcb. unfold fireTimer, clearTimeout. run. rewrite Hcb. by run.
Qed.

(* The caller-side callback, for comparison, ends the flow for both. *)
Lemma caller_timer_callback_notifies st id callerIdVal calleeIdVal :
  timers st !! id = Some (callerRingTimeout callerIdVal calleeIdVal) ->
  all_sent (trace_of (fireTimer id st))
  = [(FLAGS.CALL_TIMEOUT,
      VObj [("to", calleeIdVal); ("callerId", callerIdVal); ("calleeId", calleeIdVal)]);
     (FLAGS.SELF_STOP_RING,
      VObj [("to", callerIdVal); ("calleeId", callerIdVal)])].
Proof.
  intros Hcb. unfold fireTimer, clearTimeout. run. rewrite Hcb. by run.
Qed.

(** C2: the callee ring timer armed by an Initiate fires.  The claim asks
    for the peer to be notified and the session to terminate; here the
    run is evaluated: bob is rung by alice, timer 1 is armed with the
    empty callback, and when it fires no message is sent, no UI state is
    dispatched and the handle, the invite, the side and the guard stay as
    they were. *)
Theorem callee_ring_timeout_does_nothing :
  let st := Scenario.ringing_callee in
  let r := fireTimer 1 st in
  _calleeRingTimerId st = Some 1
  /\ timers st !! 1 = Some calleeRingTimeout
  /\ trace_of r = []
  /\ _calleeRingTimerId (state_of r) = Some 1
  /\ _invite (state_of r) = _invite st
  /\ _currentSide (state_of r) = VStr "callee"
  /\ _inCallOrConnecting (state_of r) = false.
Proof. vm_compute. done. Qed.

(* ---------------------------------------------------------------------- *)
(* Remote Cancelled, Timeout, Declined                                    *)
(* ---------------------------------------------------------------------- *)

Lemma handleSocketTimeout_run st body :
  handleSocketTimeout body st
  = (None, set_inCallOrConnecting false (cleared_callee (cleared_caller st)),
     [dispatchEvent FLAGS.CALL_ENDED
        (VObj [("reason", VStr "timeout"); ("callerId", prop_if body "callerId");
               ("calleeId", prop_if body "calleeId")]);
      dipatchUI "caller:terminated" "timeout"
        (VObj [("callerId", prop_if body "callerId");
               ("calleeId", prop_if body "calleeId")])]).
Proof. unfold handleSocketTimeout. by run. Qed.

Lemma handleSocketCancelled_run st body :
  handleSocketCancelled body st
  = (None, cleared_callee (cleared_caller st),
     [dispatchEvent FLAGS.CALL_ENDED
        (VObj [("reason", VStr "hangup"); ("callerId", prop_if body "callerId");
               ("calleeId", prop_if body "calleeId")]);
      dipatchUI "callee:terminated" "cancelled"
        (VObj [("callerId", prop_if body "callerId");
               ("calleeId", prop_if body "calleeId")])]).
Proof. unfold handleSocketCancelled. by run. Qed.



(* ---------------------------------------------------------------------- *)
(* SelfStopRing                                                           *)
(* ---------------------------------------------------------------------- *)

Lemma handleSocketSelfStopRinging_run st body :
  handleSocketSelfStopRinging body st
  = (None, cleared_callee (cleared_caller st), []).
Proof. unfold handleSocketSelfStopRinging. by run. Qed.

(** C6, as amended: a remote SelfStopRing clears both ring timers, the
    caller-side and the callee-side one; the invite, the side, the guard
    and the pending join keep their values, nothing is sent or shown, and
    a second SelfStopRing changes nothing more. *)
Theorem self_stop_ring_clears_both st body :
  let r := handleSocketSelfStopRinging body st in
  _callerRingTimerId (state_of r) = None
  /\ _calleeRingTimerId (state_of r) = None
  /\ _invite (state_of r) = _invite st
  /\ _currentSide (state_of r) = _currentSide st
  /\ _inCallOrConnecting (state_of r) = _inCallOrConnecting st
  /\ _pendingCalleeJoin (state_of r) = _pendingCalleeJoin st
  /\ trace_of r = []
  /\ result_of r = None
  /\ state_of (handleSocketSelfStopRinging body (state_of r)) = state_of r.
Proof.
  cbn zeta. rewrite !handleSocketSelfStopRinging_run.
  unfold state_of, trace_of, result_of. cbn [fst snd].
  destruct (cleared_caller_fields st) as (Hc1 & Hc2 & Hc3 & Hc4 & Hc5 & Hc6).
  destruct (cleared_callee_fields (cleared_caller st))
    as (Hd1 & Hd2 & Hd3 & Hd4 & Hd5 & Hd6).
  rewrite Hd1, Hd2, Hd3, Hd4, Hd5, Hd6, Hc1, Hc3, Hc4, Hc5, Hc6.
  repeat split.
  unfold cleared_caller at 1. rewrite Hd2, Hc1. apply cleared_callee_idem.
Qed.

(* ---------------------------------------------------------------------- *)
(* Validation of inbound messages                                         *)
(* ---------------------------------------------------------------------- *)

Lemma incoming_refused st body :
  negb (truthy body)
  || negb (is_str (prop body "callType") TYPE_INSTANT)
  || lacks ["callerId"; "calleeId"; "role"] body = true ->
  handleSocketIncomingCall body st = (None, st, []).
Proof.
  unfold handleSocketIncomingCall, lacks. cbn [existsb].
  destruct (truthy body); [|done]. cbn [negb orb].
  destruct (is_str (prop body "callType") TYPE_INSTANT); [|done]. cbn [negb orb].
  destruct (missing (prop body "callerId")); [done|].
  destruct (missing (prop body "calleeId")); [done|].
  destruct (missing (prop body "role")); [done|]. done.
Qed.

Lemma accepted_refused st body :
  negb (truthy body) || lacks ["callerId"; "calleeId"] body = true ->
  handleSocketAccepted body st = (None, st, []).
Proof.
  unfold handleSocketAccepted, lacks. cbn [existsb].
  destruct (truthy body); [|done]. cbn [negb orb].
  destruct (missing (prop body "callerId")); [done|].
  destruct (missing (prop body "calleeId")); [done|]. done.
Qed.

Lemma declined_refused st body :
  negb (truthy body) || lacks ["callerId"; "calleeId"; "reason"] body = true ->
  handleSocketDeclined body st = (None, st, []).
Proof.
  unfold handleSocketDeclined, lacks. cbn [existsb].
  destruct (truthy body); [|done]. cbn [negb orb].
  destruct (missing (prop body "callerId")); [done|].
  destruct (missing (prop body "calleeId")); [done|].
  destruct (missing (prop body "reason")); [done|]. done.
Qed.

Lemma meetingReady_refused st body :
  negb (truthy body)
  || lacks ["meetingId"; "callerId"; "calleeId"; "callerRole"; "calleeRole"] body
     = true ->
  handleSocketMeetingReady body st = (None, st, []).
Proof.
  unfold handleSocketMeetingReady, lacks. cbn [existsb].
  destruct (truthy body); [|done]. cbn [negb orb].
  destruct (missing (prop body "meetingId")); [done|].
  destruct (missing (prop body "callerId")); [done|].
  destruct (missing (prop body "calleeId")); [done|].
  destruct (missing (prop body "callerRole")); [done|].
  destruct (missing (prop body "calleeRole")); [done|]. done.
Qed.

(** C4, as amended: for an inbound Initiate, Accepted, Declined or
    MeetingReady the listener checks its body before anything else (body
    present; caller id and callee id, and role, reason, or meeting id and
    both roles, neither undefined nor empty; for an Initiate the instant
    call type), and a message failing the check is dropped: the state is
    the one before, nothing is sent, shown or started. *)
Theorem refused_message_is_dropped st flag body :
  refused flag body = Some true ->
  onSocketMessage flag body st = (None, st, []).
Proof.
  unfold refused, onSocketMessage.
  destruct (String.eqb flag FLAGS.CALL_INCOMING).
  { cbn [orb]. intros [= H]. by apply incoming_refused. }
  destruct (String.eqb flag FLAGS.CALL_INITIATE).
  { cbn [orb]. intros [= H]. by apply incoming_refused. }
  cbn [orb].
  destruct (String.eqb flag FLAGS.CALL_ACCEPTED).
  { intros [= H]. by apply accepted_refused. }
  destruct (String.eqb flag FLAGS.CALL_DECLINED).
  { intros [= H]. by apply declined_refused. }
  destruct (String.eqb flag FLAGS.CALL_TIMEOUT) eqn:E1.
  { apply String.eqb_eq in E1 as ->. by vm_compute. }
  destruct (String.eqb flag FLAGS.CALL_CANCELLED) eqn:E2.
  { apply String.eqb_eq in E2 as ->. by vm_compute. }
  destruct (String.eqb flag FLAGS.SELF_STOP_RING) eqn:E3.
  { apply String.eqb_eq in E3 as ->. by vm_compute. }
  destruct (String.eqb flag FLAGS.MEETING_READY).
  { intros [= H]. by apply meetingReady_refused. }
  done.
Qed.

(* ---------------------------------------------------------------------- *)
(* Failures while provisioning and joining                                *)
(* ---------------------------------------------------------------------- *)


(* On the callee chain a failed step sends one MeetingProblem to the
   caller and lowers the guard: creating the record, *)
Lemma meeting_id_failure_reports st path callerIdVal calleeIdVal calleeRole r message :
  getMeetingID_finish r = Throw message ->
  let out := resume (awaitMeetingID path callerIdVal calleeIdVal calleeRole)
               (fetched r) st in
  _inCallOrConnecting (state_of out) = false
  /\ all_sent (trace_of out)
     = [(FLAGS.MEETING_PROBLEM, meeting_problem callerIdVal calleeIdVal message)].
Proof. intros H. cbn -[getMeetingID_finish]. rewrite H. by run. Qed.

(* creating the Chime meeting, *)
Lemma chime_meeting_failure_reports st path callerIdVal calleeIdVal calleeRole
    meetingId camMic r message :
  createChimeMeeting_finish r = Throw message ->
  let out := resume (awaitChimeMeeting path callerIdVal calleeIdVal calleeRole
                       meetingId camMic) (fetched r) st in
  _inCallOrConnecting (state_of out) = false
  /\ all_sent (trace_of out)
     = [(FLAGS.MEETING_PROBLEM, meeting_problem callerIdVal calleeIdVal message)].
Proof.
  intros H.
  destruct camMic as [[|]|]; cbn -[createChimeMeeting_finish]; rewrite H; by run.
Qed.

(* and the join of auto-join mode. *)
Lemma auto_join_failure_reports st callerIdVal calleeIdVal args r message :
  joinChimeMeeting_finish args r = Throw message ->
  let out := resume (awaitAddAttendee (calleeAutoJoin callerIdVal calleeIdVal) args)
               (fetched r) st in
  _inCallOrConnecting (state_of out) = false
  /\ all_sent (trace_of out)
     = [(FLAGS.MEETING_PROBLEM, meeting_problem callerIdVal calleeIdVal message)].
Proof. intros H. cbn -[joinChimeMeeting_finish]. rewrite H. by run. Qed.

(* The join after the Join button lowers the guard and sends nothing. *)
Lemma manual_join_failure_is_local st args r message :
  joinChimeMeeting_finish args r = Throw message ->
  let out := resume (awaitAddAttendee calleeManualJoin args) (fetched r) st in
  state_of out = set_inCallOrConnecting false st
  /\ all_sent (trace_of out) = [].
Proof. intros H. cbn -[joinChimeMeeting_finish]. rewrite H. by run. Qed.

(* The caller's join after MeetingReady changes no state and sends
   nothing: it raises a local meeting:problem event only. *)
Lemma caller_join_failure_is_local st body args r message :
  joinChimeMeeting_finish args r = Throw message ->
  resume (awaitAddAttendee (callerJoin body) args) (fetched r) st
  = (None, st,
     [dipatchUI "caller:terminated" "error"
        (VObj [("message", VStr "caller join failed");
               ("meetingId", prop body "meetingId")]);
      dispatchEvent FLAGS.MEETING_PROBLEM
        (VObj [("meetingId", prop body "meetingId");
               ("callerId", prop body "callerId");
               ("calleeId", prop body "calleeId");
               ("message", VStr "join failed")])]).
Proof. intros H. cbn -[joinChimeMeeting_finish]. rewrite H. by run. Qed.

(** C5: the caller's join fails after MeetingReady.  The claim asks for
    one MeetingProblem over the transport and the guard lowered, as the
    callee chain does; here the run is evaluated: alice, whose call bob
    accepted, receives MeetingReady, the addAttendee request is rejected,
    and no message at all is sent while _inCallOrConnecting stays true. *)
Theorem caller_join_failure_keeps_guard :
  let st := Scenario.accepted_caller in
  let r1 := handleSocketMeetingReady (Scenario.meetingReady "alice" "bob") st in
  let r2 := continue (result_of r1) (fetched (Rejected "Failed to fetch")) (state_of r1) in
  _inCallOrConnecting st = true
  /\ result_of r2 = None
  /\ all_sent (trace_of r2) = []
  /\ sent FLAGS.MEETING_PROBLEM (trace_of r2) = []
  /\ _inCallOrConnecting (state_of r2) = true.
Proof. vm_compute. done. Qed.

(* ---------------------------------------------------------------------- *)
(* Accepting                                                              *)
(* ---------------------------------------------------------------------- *)

Lemma announce_accept_run st path callerIdVal calleeIdVal calleeRole :
  announce_accept path callerIdVal calleeIdVal calleeRole st
  = (Some (awaitMeetingID path callerIdVal calleeIdVal calleeRole), st,
     accept_trace callerIdVal calleeIdVal).
Proof. by run. Qed.

(* Whatever the event carries, handleAppAcceptCall leaves the ring
   timers, the timer table and the guard alone. *)
Lemma app_accept_frame st e :
  let st' := state_of (handleAppAcceptCall e st) in
  _calleeRingTimerId st' = _calleeRingTimerId st
  /\ _callerRingTimerId st' = _callerRingTimerId st
  /\ timers st' = timers st
  /\ _inCallOrConnecting st' = _inCallOrConnecting st.
Proof.
  unfold handleAppAcceptCall.
  repeat (match goal with |- context [if ?c then _ else _] => destruct c end;
          [by run |]).
  run. destruct (is_null _); by run.
Qed.

(* No step of a provisioning chain or of a join touches a ring timer or
   raises the guard. *)
Lemma calleeChainCatch_frame st callerIdVal calleeIdVal message :
  chain_frame st (state_of (calleeChainCatch callerIdVal calleeIdVal message st)).
Proof. by run. Qed.

Lemma afterMeetingID_frame st path callerIdVal calleeIdVal calleeRole meetingId :
  chain_frame st
    (state_of (afterMeetingID path callerIdVal calleeIdVal calleeRole meetingId st)).
Proof.
  unfold afterMeetingID. run. by destruct (CALLEE_MANUAL_JOIN_ENABLED st); run.
Qed.

Lemma afterChimeMeeting_frame st path callerIdVal calleeIdVal calleeRole meetingId
    chimeId fullMeeting :
  chain_frame st
    (state_of (afterChimeMeeting path callerIdVal calleeIdVal calleeRole meetingId
                 chimeId fullMeeting st)).
Proof.
  unfold afterChimeMeeting. run. by destruct (CALLEE_MANUAL_JOIN_ENABLED st); run.
Qed.

Lemma joinThen_frame st who args : chain_frame st (state_of (joinThen who args st)).
Proof. by destruct who; run. Qed.

Lemma joinCatch_frame st who message :
  chain_frame st (state_of (joinCatch who message st)).
Proof. by destruct who; run. Qed.

Lemma resume_frame t c st : chain_frame st (state_of (resume t c st)).
Proof.
  destruct t, c; cbn -[getMeetingID_finish createChimeMeeting_finish
                        joinChimeMeeting_finish afterMeetingID afterChimeMeeting
                        calleeChainCatch joinThen joinCatch chain_frame].
  - destruct (getMeetingID_finish r);
      [apply afterMeetingID_frame | apply calleeChainCatch_frame].
  - by run.
  - destruct camMic as [[|]|];
      (destruct (createChimeMeeting_finish r) as [[chimeId fullMeeting]|];
       [first [apply afterChimeMeeting_frame | by run]
       | apply calleeChainCatch_frame]).
  - destruct camMic as [[|]|]; by run.
  - by run.
  - apply afterChimeMeeting_frame.
  - destruct (joinChimeMeeting_finish args r) as [joined|].
    + pose proof (joinThen_frame st who args) as H. revert H.
      unfold state_of, bind, emit. cbn.
      by destruct (joinThen who args st) as [[? ?] ?].
    + apply joinCatch_frame.
  - by run.
Qed.

(** C10: accepting through the app:call:accept event sends SelfStopRing
    and Accepted and starts the provisioning chain with the getMeetingID
    request; the only field it writes is _currentSide, so the callee ring
    timer handle, the armed timers and _inCallOrConnecting keep the values
    they had before the event; and no later step of the chain raises the
    guard or touches the callee ring timer. *)
Theorem app_accept_keeps_timer_and_guard st e :
  is_accept (detail_of e) = true ->
  is_null (Invite.callerRole (_invite st)) = false ->
  let d := detail_of e in
  let r := handleAppAcceptCall e st in
  r = (Some (awaitMeetingID viaAppEvent (prop d "callerId") (prop d "calleeId")
               (prop d "role")),
       set_currentSide (VStr "callee") st,
       dipatchUI "callee:callAccepted" "none"
         (VObj [("callerId", prop d "callerId"); ("calleeId", prop d "calleeId");
                ("role", prop d "role")])
       :: accept_trace (prop d "callerId") (prop d "calleeId"))
  /\ _calleeRingTimerId (state_of r) = _calleeRingTimerId st
  /\ timers (state_of r) = timers st
  /\ _inCallOrConnecting (state_of r) = _inCallOrConnecting st
  /\ (forall t c st1,
        _calleeRingTimerId (state_of (resume t c st1)) = _calleeRingTimerId st1
        /\ (_inCallOrConnecting (state_of (resume t c st1)) = true ->
            _inCallOrConnecting st1 = true)).
Proof.
  unfold is_accept. rewrite !andb_true_iff, !negb_true_iff.
  intros ((((Hd & Ht) & H1) & H2) & H3) Hrole. cbn zeta.
  assert (Hrun : handleAppAcceptCall e st
                 = (Some (awaitMeetingID viaAppEvent (prop (detail_of e) "callerId")
                            (prop (detail_of e) "calleeId") (prop (detail_of e) "role")),
                    set_currentSide (VStr "callee") st,
                    dipatchUI "callee:callAccepted" "none"
                      (VObj [("callerId", prop (detail_of e) "callerId");
                             ("calleeId", prop (detail_of e) "calleeId");
                             ("role", prop (detail_of e) "role")])
                    :: accept_trace (prop (detail_of e) "callerId")
                         (prop (detail_of e) "calleeId"))).
  { unfold handleAppAcceptCall. rewrite Hd, Ht, H1, H2, H3. run.
    rewrite Hrole. by run. }
  rewrite Hrun. repeat split.
  - by destruct (resume_frame t c st1) as (? & _).
  - by destruct (resume_frame t c st1) as (_ & _ & _ & ?).
Qed.



(* ---------------------------------------------------------------------- *)
(* The provisioning chain, run from its first task                        *)
(* ---------------------------------------------------------------------- *)

Lemma cleared_callee_invite st : _invite (cleared_callee st) = _invite st.
Proof. apply cleared_callee_fields. Qed.

Lemma cleared_caller_invite st : _invite (cleared_caller st) = _invite st.
Proof. apply cleared_caller_fields. Qed.


Lemma cleared_caller_manual st :
  CALLEE_MANUAL_JOIN_ENABLED (cleared_caller st) = CALLEE_MANUAL_JOIN_ENABLED st.
Proof. unfold cleared_caller. by destruct (_callerRingTimerId st). Qed.








(* ---------------------------------------------------------------------- *)
(* Manual join                                                            *)
(* ---------------------------------------------------------------------- *)


(* In manual-join mode the chain stores the descriptor and starts no
   join of its own. *)
Lemma provisioning_holds_descriptor st path callerIdVal calleeIdVal calleeRole
    meetingId chimeId fullMeeting :
  CALLEE_MANUAL_JOIN_ENABLED st = true ->
  let r := afterChimeMeeting path callerIdVal calleeIdVal calleeRole meetingId
             chimeId fullMeeting st in
  _pendingCalleeJoin (state_of r)
  = Some (Pending.mk meetingId calleeIdVal calleeRole chimeId
            (Invite.callType (_invite st)) fullMeeting)
  /\ result_of r = None
  /\ (forall endpoint body, fetch endpoint body ∉ trace_of r).
Proof.
  intros Hm. unfold afterChimeMeeting. run. rewrite Hm. run.
  repeat split. intros endpoint body Hin.
  repeat (apply elem_of_cons in Hin as [Hin | Hin]; [discriminate|]).
  by apply elem_of_nil in Hin.
Qed.





(* ---------------------------------------------------------------------- *)
(* Credential extraction                                                  *)
(* ---------------------------------------------------------------------- *)




Lemma extract_attendee data decoded chimeMeetingId fullMeeting userId :
  match (extract data decoded chimeMeetingId fullMeeting).2 with
  | Some attendee => attendee
  | None => VObj [("AttendeeId", prop data "attendeeId"); ("ExternalUserId", userId)]
  end = attendee_for data decoded userId.
Proof.
  unfold extract, from_fullMeeting, from_meeting_field, from_top_level,
    from_meetingInfo, attendee_for.
  destruct (truthy (prop data "meetingInfo")); [destruct decoded as [d|]|];
    [destruct (get d "MediaPlacement") as [pl|];
     [destruct (truthy pl && truthy (prop pl "AudioHostUrl"));
      destruct (truthy (prop d "Attendee"))|]|..];
    cbn [fst snd];
    destruct (truthy (prop data "MediaPlacement")
              && truthy (prop (prop data "MediaPlacement") "AudioHostUrl"));
    cbn [fst snd]; try done;
    destruct (truthy (prop data "meeting")
              && truthy (prop (prop data "meeting") "MediaPlacement"));
    cbn [fst snd]; try done;
    by destruct (truthy fullMeeting).
Qed.






(* ---------------------------------------------------------------------- *)
(* Instances and counterexamples                                          *)
(* ---------------------------------------------------------------------- *)

(* alice is in a call; dave's Initiate is declined and nothing moves. *)
Lemma busy_guard_auto_declines_witness :
  _inCallOrConnecting Scenario.accepted_caller = true
  /\ is_initiate (Scenario.initiate "dave" "alice") = true
  /\ state_of (handleSocketIncomingCall (Scenario.initiate "dave" "alice")
                 Scenario.accepted_caller)
     = Scenario.accepted_caller
  /\ sent FLAGS.CALL_DECLINED
       (trace_of (handleSocketIncomingCall (Scenario.initiate "dave" "alice")
                    Scenario.accepted_caller))
     = [auto_decline (Scenario.initiate "dave" "alice")].
Proof.
  split; [reflexivity|]. split; [reflexivity|].
  destruct (busy_guard_auto_declines Scenario.accepted_caller
              (Scenario.initiate "dave" "alice") eq_refl eq_refl)
    as (Hrun & Hsent & _).
  split; [by rewrite Hrun | exact Hsent].
Defined.



(* A call:accepted message without calleeId is dropped. *)
Lemma refused_message_is_dropped_witness :
  refused FLAGS.CALL_ACCEPTED (VObj [("callerId", VStr "alice")]) = Some true
  /\ onSocketMessage FLAGS.CALL_ACCEPTED (VObj [("callerId", VStr "alice")])
       Scenario.ringing_caller
     = (None, Scenario.ringing_caller, []).
Proof.
  split; [reflexivity|].
  apply (refused_message_is_dropped Scenario.ringing_caller FLAGS.CALL_ACCEPTED
           (VObj [("callerId", VStr "alice")])).
  reflexivity.
Defined.

(** C4, counterexample: a call:timeout message with no body at all meets
    no schema, and yet it clears the armed callee timer and lowers the
    guard. *)
Lemma timeout_without_body_mutates :
  let st := Scenario.accepted_caller in
  let st' := state_of (onSocketMessage FLAGS.CALL_TIMEOUT VUndefined st) in
  meets_schema SCHEMA.timeout VUndefined = false
  /\ _calleeRingTimerId st = Some 2 /\ _calleeRingTimerId st' = None
  /\ _inCallOrConnecting st = true /\ _inCallOrConnecting st' = false
  /\ st' <> st.
Proof.
  vm_compute. repeat split. intros H. discriminate H.
Qed.

(** C6, counterexample: alice is ringing bob (caller timer 1) while
    carol's call rings at alice (callee timer 2).  A SelfStopRing arrives:
    the callee-side handle is null afterwards and timer 2 is disarmed. *)
Lemma self_stop_ring_clears_callee_timer :
  let st := Scenario.ringing_both in
  let st' := state_of (handleSocketSelfStopRinging
                         (VObj [("to", VStr "alice"); ("calleeId", VStr "alice")]) st) in
  _callerRingTimerId st = Some 1
  /\ _calleeRingTimerId st = Some 2
  /\ timers st !! 2 = Some calleeRingTimeout
  /\ _calleeRingTimerId st' = None
  /\ timers st' !! 2 = None
  /\ _calleeRingTimerId st' <> _calleeRingTimerId st.
Proof.
  vm_compute. repeat split. intros H. discriminate H.
Qed.






(* bob, rung by alice, accepts through the app event. *)
Lemma app_accept_keeps_timer_and_guard_witness :
  is_accept (detail_of (Scenario.accept "alice" "bob")) = true
  /\ is_null (Invite.callerRole (_invite Scenario.ringing_callee)) = false
  /\ _calleeRingTimerId
       (state_of (handleAppAcceptCall (Scenario.accept "alice" "bob")
                    Scenario.ringing_callee)) = Some 1
  /\ _inCallOrConnecting
       (state_of (handleAppAcceptCall (Scenario.accept "alice" "bob")
                    Scenario.ringing_callee)) = false.
Proof.
  destruct (app_accept_keeps_timer_and_guard Scenario.ringing_callee
              (Scenario.accept "alice" "bob") eq_refl eq_refl)
    as (_ & Htimer & _ & Hguard & _).
  split; [reflexivity|]. split; [reflexivity|].
  split; [exact Htimer | exact Hguard].
Defined.

(* ---------------------------------------------------------------------- *)
(* The ring timers over every run                                         *)
(* ---------------------------------------------------------------------- *)

Lemma timers_owned_view st st' :
  timer_view st' = timer_view st -> timers_owned st -> timers_owned st'.
Proof.
  unfold timer_view, timers_owned. intros [= Ht Hn Hc He] H id cb.
  rewrite Ht, Hn, Hc, He. apply H.
Qed.

Lemma timers_owned_cleared_caller st :
  timers_owned st -> timers_owned (cleared_caller st).
Proof.
  intros H. unfold cleared_caller.
  destruct (_callerRingTimerId st) as [h|] eqn:E; [|done].
  intros id cb. cbn. intros Hl.
  apply lookup_delete_Some in Hl as [Hne Hl].
  destruct (H id cb Hl) as [Hlt Hown]. split; [done|].
  destruct cb; [congruence | done].
Qed.

Lemma timers_owned_cleared_callee st :
  timers_owned st -> timers_owned (cleared_callee st).
Proof.
  intros H. unfold cleared_callee.
  destruct (_calleeRingTimerId st) as [h|] eqn:E; [|done].
  intros id cb. cbn. intros Hl.
  apply lookup_delete_Some in Hl as [Hne Hl].
  destruct (H id cb Hl) as [Hlt Hown]. split; [done|].
  destruct cb; [done | congruence].
Qed.

Lemma timers_owned_fired st id :
  timers_owned st ->
  timers_owned (set_timers (delete id (timers st)) (nextTimerId st) st).
Proof.
  intros H id' cb. cbn. intros Hl.
  apply lookup_delete_Some in Hl as [Hne Hl]. exact (H id' cb Hl).
Qed.

Lemma timers_owned_armed_caller st callerIdVal calleeIdVal :
  timers_owned st ->
  _callerRingTimerId st = None ->
  timers_owned
    (set_callerRingTimerId (Some (nextTimerId st))
       (set_timers (<[nextTimerId st := callerRingTimeout callerIdVal calleeIdVal]>
                      (timers st))
          (S (nextTimerId st)) st)).
Proof.
  intros H Hnone id cb. cbn. intros Hl.
  apply lookup_insert_Some in Hl as [[<- <-]|[Hne Hl]]; [split; [lia|done]|].
  destruct (H id cb Hl) as [Hlt Hown]. split; [lia|].
  destruct cb; [congruence | done].
Qed.

Lemma timers_owned_armed_callee st :
  timers_owned st ->
  _calleeRingTimerId st = None ->
  timers_owned
    (set_calleeRingTimerId (Some (nextTimerId st))
       (set_timers (<[nextTimerId st := calleeRingTimeout]> (timers st))
          (S (nextTimerId st)) st)).
Proof.
  intros H Hnone id cb. cbn. intros Hl.
  apply lookup_insert_Some in Hl as [[<- <-]|[Hne Hl]]; [split; [lia|done]|].
  destruct (H id cb Hl) as [Hlt Hown]. split; [lia|].
  destruct cb; [done | congruence].
Qed.

Lemma start_ringing_owned st callerIdVal calleeIdVal ui :
  timers_owned st ->
  timers_owned (state_of (start_ringing callerIdVal calleeIdVal ui st)).
Proof.
  intros H. unfold start_ringing. run.
  apply timers_owned_armed_caller.
  - apply timers_owned_cleared_caller. by apply (timers_owned_view st).
  - apply cleared_caller_fields.
Qed.

(* Closes a goal about a handler that has run into one of its early
   returns. *)
Ltac early_return H := run; first [exact H | done].

Lemma handleStartInstantCallClick_owned st :
  timers_owned st -> timers_owned (state_of (handleStartInstantCallClick st)).
Proof.
  intros H. unfold handleStartInstantCallClick, state_of, bind, gets.
  cbn -[start_ringing].
  destruct (Els.callType (_els st)) as [callTypeVal|]; [|done].
  destruct (Els.role (_els st)) as [callerRole|]; [|done].
  destruct (Els.currentUserId (_els st)) as [callerIdVal|]; [|done].
  destruct (Els.targetUserId (_els st)) as [calleeIdVal|]; [|done].
  destruct (negb _); [done|].
  destruct (missing callerIdVal); [done|].
  destruct (missing calleeIdVal); [done|].
  destruct (missing callerRole); [done|].
  unfold emit. cbn -[start_ringing].
  match goal with
  | |- context [start_ringing ?a ?b ?ui ?s] =>
      pose proof (start_ringing_owned s a b ui H) as Hs;
      unfold state_of in Hs;
      by destruct (start_ringing a b ui s) as [[o st'] trace]
  end.
Qed.

Lemma initiateCall_owned st mediaType :
  timers_owned st -> timers_owned (state_of (_initiateCall mediaType st)).
Proof.
  intros H. unfold _initiateCall, state_of, bind, gets.
  cbn -[start_ringing].
  destruct (Els.role (_els st)) as [callerRole|]; [|done].
  destruct (Els.currentUserId (_els st)) as [callerIdVal|]; [|done].
  destruct (Els.targetUserId (_els st)) as [calleeIdVal|]; [|done].
  destruct (missing callerIdVal); [done|].
  destruct (missing calleeIdVal); [done|].
  destruct (missing callerRole); [done|].
  unfold emit, modify. cbn -[start_ringing].
  match goal with
  | |- context [start_ringing ?a ?b ?ui ?s] =>
      assert (timers_owned s) as H' by (by apply (timers_owned_view st));
      pose proof (start_ringing_owned s a b ui H') as Hs;
      unfold state_of in Hs;
      by destruct (start_ringing a b ui s) as [[o st'] trace]
  end.
Qed.

Lemma handleAppStartCall_owned st e :
  timers_owned st -> timers_owned (state_of (handleAppStartCall e st)).
Proof.
  intros H. unfold handleAppStartCall.
  repeat (match goal with |- context [if ?c then _ else _] => destruct c end;
          [by early_return H |]).
  unfold state_of, bind, emit. cbn -[start_ringing].
  match goal with
  | |- context [start_ringing ?a ?b ?ui ?s] =>
      pose proof (start_ringing_owned s a b ui H) as Hs;
      unfold state_of in Hs;
      by destruct (start_ringing a b ui s) as [[o st'] trace]
  end.
Qed.

Lemma handleAcceptClick_owned st :
  timers_owned st -> timers_owned (state_of (handleAcceptClick st)).
Proof.
  intros H. unfold handleAcceptClick. run.
  destruct (Els.currentUserId (_els st)) as [calleeIdVal|]; [|done].
  destruct (Els.targetUserId (_els st)) as [callerIdVal|]; [|done].
  destruct (Els.callType (_els st)) as [callTypeVal|]; [|done].
  destruct (Els.role (_els st)) as [calleeRole|]; [|done].
  destruct (negb _); [done|].
  destruct (missing callerIdVal); [done|].
  destruct (missing calleeIdVal); [done|].
  destruct (missing calleeRole); [done|].
  run. destruct (is_null _); [done|]. run.
  apply (timers_owned_view (cleared_callee st)); [done|].
  by apply timers_owned_cleared_callee.
Qed.

Lemma handleAppAcceptCall_owned st e :
  timers_owned st -> timers_owned (state_of (handleAppAcceptCall e st)).
Proof.
  intros H. unfold handleAppAcceptCall.
  repeat (match goal with |- context [if ?c then _ else _] => destruct c end;
          [by early_return H |]).
  run. destruct (is_null _); run; by apply (timers_owned_view st).
Qed.

(* Declining and cancelling change no field at all. *)
Lemma handleRejectClick_state st : state_of (handleRejectClick st) = st.
Proof.
  unfold handleRejectClick. run.
  destruct (Els.currentUserId (_els st)); [|done].
  destruct (Els.targetUserId (_els st)); [|done].
  destruct (Els.callType (_els st)); [|done].
  destruct (Els.rejectReason (_els st)); [|done].
  repeat (match goal with |- context [if ?c then _ else _] => destruct c end;
          [done |]).
  done.
Qed.

Lemma handleAppRejectCall_state st e : state_of (handleAppRejectCall e st) = st.
Proof.
  unfold handleAppRejectCall.
  repeat (match goal with |- context [if ?c then _ else _] => destruct c end;
          [done |]).
  done.
Qed.

Lemma handleCancelClick_state st : state_of (handleCancelClick st) = st.
Proof.
  unfold handleCancelClick. run.
  destruct (Els.currentUserId (_els st)); [|done].
  destruct (Els.targetUserId (_els st)); [|done].
  destruct (Els.callType (_els st)); [|done].
  repeat (match goal with |- context [if ?c then _ else _] => destruct c end;
          [done |]).
  done.
Qed.

Lemma handleAppCancelCall_state st e : state_of (handleAppCancelCall e st) = st.
Proof.
  unfold handleAppCancelCall.
  repeat (match goal with |- context [if ?c then _ else _] => destruct c end;
          [done |]).
  done.
Qed.

Lemma handleManualCalleeJoin_owned st :
  timers_owned st -> timers_owned (state_of (handleManualCalleeJoin st)).
Proof.
  intros H. unfold handleManualCalleeJoin. run.
  destruct (_pendingCalleeJoin st); run; by apply (timers_owned_view st).
Qed.

Lemma joinMeetingButtonClick_owned st :
  timers_owned st -> timers_owned (state_of (joinMeetingButtonClick st)).
Proof.
  intros H. pose proof (handleManualCalleeJoin_owned st H) as Hj.
  unfold joinMeetingButtonClick, state_of, bind, gets in *.
  cbn -[handleManualCalleeJoin].
  destruct (_pendingCalleeJoin st); [|done].
  by destruct (handleManualCalleeJoin st) as [[o st'] trace].
Qed.

Lemma handleSocketIncomingCall_owned st body :
  timers_owned st -> timers_owned (state_of (handleSocketIncomingCall body st)).
Proof.
  intros H. unfold handleSocketIncomingCall.
  repeat (match goal with |- context [if ?c then _ else _] => destruct c end;
          [by early_return H |]).
  run. destruct (_inCallOrConnecting st); run; [done|].
  apply timers_owned_armed_callee.
  - apply timers_owned_cleared_callee. by apply (timers_owned_view st).
  - apply cleared_callee_fields.
Qed.

Lemma handleSocketAccepted_owned st body :
  timers_owned st -> timers_owned (state_of (handleSocketAccepted body st)).
Proof.
  intros H. unfold handleSocketAccepted.
  repeat (match goal with |- context [if ?c then _ else _] => destruct c end;
          [by early_return H |]).
  run. apply (timers_owned_view (cleared_caller st)); [done|].
  by apply timers_owned_cleared_caller.
Qed.

Lemma handleSocketDeclined_owned st body :
  timers_owned st -> timers_owned (state_of (handleSocketDeclined body st)).
Proof.
  intros H. unfold handleSocketDeclined.
  repeat (match goal with |- context [if ?c then _ else _] => destruct c end;
          [by early_return H |]).
  run. by apply timers_owned_cleared_caller.
Qed.

Lemma cleared_both_owned st :
  timers_owned st -> timers_owned (cleared_callee (cleared_caller st)).
Proof. intros H. by apply timers_owned_cleared_callee, timers_owned_cleared_caller. Qed.

Lemma handleSocketMeetingReady_owned st body :
  timers_owned st -> timers_owned (state_of (handleSocketMeetingReady body st)).
Proof.
  intros H. unfold handleSocketMeetingReady.
  repeat (match goal with |- context [if ?c then _ else _] => destruct c end;
          [by early_return H |]).
  by run.
Qed.

Lemma onSocketMessage_owned st flag body :
  timers_owned st -> timers_owned (state_of (onSocketMessage flag body st)).
Proof.
  intros H. unfold onSocketMessage.
  destruct (String.eqb flag FLAGS.CALL_INCOMING);
    [by apply handleSocketIncomingCall_owned|].
  destruct (String.eqb flag FLAGS.CALL_INITIATE);
    [by apply handleSocketIncomingCall_owned|].
  destruct (String.eqb flag FLAGS.CALL_ACCEPTED);
    [by apply handleSocketAccepted_owned|].
  destruct (String.eqb flag FLAGS.CALL_DECLINED);
    [by apply handleSocketDeclined_owned|].
  destruct (String.eqb flag FLAGS.CALL_TIMEOUT).
  { rewrite handleSocketTimeout_run. cbn.
    apply (timers_owned_view (cleared_callee (cleared_caller st))); [done|].
    by apply cleared_both_owned. }
  destruct (String.eqb flag FLAGS.CALL_CANCELLED).
  { rewrite handleSocketCancelled_run. by apply cleared_both_owned. }
  destruct (String.eqb flag FLAGS.SELF_STOP_RING).
  { rewrite handleSocketSelfStopRinging_run. by apply cleared_both_owned. }
  destruct (String.eqb flag FLAGS.MEETING_READY);
    [by apply handleSocketMeetingReady_owned|].
  destruct (String.eqb flag FLAGS.MEETING_PROBLEM).
  { unfold handleSocketMeetingProblem. run. by apply (timers_owned_view st). }
  destruct (String.eqb flag "meeting:status"); by run.
Qed.

Lemma fireTimer_owned st id :
  timers_owned st -> timers_owned (state_of (dispatch (timerFires id) st)).
Proof.
  intros H. unfold dispatch, fireTimer, clearTimeout, state_of.
  unfold bind at 1 2. unfold gets. cbn [fst snd].
  destruct (timers st !! id) as [[a b|]|]; cbn; try done;
    by apply timers_owned_fired.
Qed.

(* No step of a chain changes anything about the timers. *)
Lemma resume_timer_view t c st :
  timer_view (state_of (resume t c st)) = timer_view st.
Proof.
  assert (Hcatch : forall a b m s,
             timer_view (state_of (calleeChainCatch a b m s)) = timer_view s)
    by done.
  assert (HafterId : forall p a b r m s,
             timer_view (state_of (afterMeetingID p a b r m s)) = timer_view s).
  { intros. unfold afterMeetingID. run.
    by destruct (CALLEE_MANUAL_JOIN_ENABLED s). }
  assert (HafterChime : forall p a b r m ch f s,
             timer_view (state_of (afterChimeMeeting p a b r m ch f s)) = timer_view s).
  { intros. unfold afterChimeMeeting. run.
    by destruct (CALLEE_MANUAL_JOIN_ENABLED s). }
  destruct t, c; cbn -[getMeetingID_finish createChimeMeeting_finish
                        joinChimeMeeting_finish afterMeetingID afterChimeMeeting
                        calleeChainCatch joinThen joinCatch timer_view].
  - destruct (getMeetingID_finish r); [apply HafterId | apply Hcatch].
  - done.
  - destruct camMic as [[|]|];
      (destruct (createChimeMeeting_finish r) as [[chimeId fullMeeting]|];
       [first [apply HafterChime | done] | apply Hcatch]).
  - by destruct camMic as [[|]|].
  - done.
  - apply HafterChime.
  - destruct (joinChimeMeeting_finish args r) as [joined|].
    + by destruct who.
    + by destruct who.
  - done.
Qed.

Lemma dispatch_owned ev st :
  timers_owned st -> timers_owned (state_of (dispatch ev st)).
Proof.
  intros H. destruct ev as [button|name e|flag body|id|t c|currentUser targetUser];
    cbn [dispatch].
  - destruct button; cbn [onClick].
    + by apply handleStartInstantCallClick_owned.
    + by apply initiateCall_owned.
    + by apply initiateCall_owned.
    + by apply handleAcceptClick_owned.
    + by rewrite handleRejectClick_state.
    + by rewrite handleCancelClick_state.
    + by apply joinMeetingButtonClick_owned.
  - unfold onAppEvent.
    destruct (String.eqb name "app:call:start"); [by apply handleAppStartCall_owned|].
    destruct (String.eqb name "app:call:accept"); [by apply handleAppAcceptCall_owned|].
    destruct (String.eqb name "app:call:reject"); [by rewrite handleAppRejectCall_state|].
    destruct (String.eqb name "app:call:cancel"); [by rewrite handleAppCancelCall_state|].
    done.
  - by apply onSocketMessage_owned.
  - by apply fireTimer_owned.
  - apply (timers_owned_view st); [apply resume_timer_view | done].
  - by apply (timers_owned_view st).
Qed.

Lemma run_events_owned evs st :
  timers_owned st -> timers_owned (run_events evs st).1.
Proof.
  revert st. induction evs as [|ev evs IH]; intros st H; [done|].
  cbn [run_events].
  pose proof (dispatch_owned ev st H) as H1. unfold state_of in H1.
  destruct (dispatch ev st) as [[o st1] trace1]. cbn [fst snd] in H1.
  specialize (IH st1 H1).
  by destruct (run_events evs st1) as [st2 trace2].
Qed.

(** X1: in every state reached by any sequence of events from a state
    with no armed timeout, an armed caller-side timeout is the one under
    _callerRingTimerId and an armed callee-side timeout is the one under
    _calleeRingTimerId; so at most one timeout is armed per side, however
    often calls are started or received. *)
Theorem one_armed_timer_per_side evs st0 :
  timers st0 = ∅ ->
  let st := (run_events evs st0).1 in
  (forall id callerIdVal calleeIdVal,
     timers st !! id = Some (callerRingTimeout callerIdVal calleeIdVal) ->
     _callerRingTimerId st = Some id)
  /\ (forall id, timers st !! id = Some calleeRingTimeout ->
                 _calleeRingTimerId st = Some id)
  /\ (forall id1 id2 cb,
        timers st !! id1 = Some cb -> timers st !! id2 = Some cb -> id1 = id2).
Proof.
  intros Hempty. cbn zeta.
  assert (H0 : timers_owned st0).
  { intros id cb. rewrite Hempty. by rewrite lookup_empty. }
  pose proof (run_events_owned evs st0 H0) as H.
  repeat split.
  - intros id a b Hl. by destruct (H id _ Hl).
  - intros id Hl. by destruct (H id _ Hl).
  - intros id1 id2 cb H1 H2.
    destruct (H id1 _ H1) as [_ Ho1]. destruct (H id2 _ H2) as [_ Ho2].
    destruct cb; congruence.
Qed.

(* ---------------------------------------------------------------------- *)
(* Starting, cancelling, declining                                        *)
(* ---------------------------------------------------------------------- *)

Lemma is_start_guards d :
  is_start d = true ->
  truthy d = true
  /\ is_str (prop d "callType") TYPE_INSTANT = true
  /\ missing (prop d "callerId") = false
  /\ missing (prop d "calleeId") = false
  /\ missing (prop d "role") = false.
Proof.
  unfold is_start. rewrite !andb_true_iff, !negb_true_iff. tauto.
Qed.

(* What a taken app:call:start leaves. *)
Lemma handleAppStartCall_run st e :
  is_start (detail_of e) = true ->
  let d := detail_of e in
  let c := cleared_caller (set_currentSide (VStr "caller") st) in
  handleAppStartCall e st
  = (None,
     set_callerRingTimerId (Some (nextTimerId st))
       (set_timers
          (<[nextTimerId st := callerRingTimeout (prop d "callerId") (prop d "calleeId")]>
             (timers c))
          (S (nextTimerId st)) c),
     [dispatchEvent FLAGS.CALL_INITIATE
        (VObj [("callerId", prop d "callerId"); ("calleeId", prop d "calleeId");
               ("type", prop d "callType"); ("role", prop d "role")]);
      sendSocketMessage FLAGS.CALL_INITIATE
        (VObj [("to", prop d "calleeId"); ("callType", prop d "callType");
               ("callerId", prop d "callerId"); ("calleeId", prop d "calleeId");
               ("role", prop d "role")])
        (Some SCHEMA.initiate);
      dipatchUI "caller:callWaiting" "none"
        (VObj [("callerId", prop d "callerId"); ("calleeId", prop d "calleeId");
               ("role", prop d "role")])]).
Proof.
  intros (Hd & Ht & H1 & H2 & H3)%is_start_guards. cbn zeta.
  unfold handleAppStartCall, start_ringing. rewrite Hd, Ht, H1, H2, H3. run.
  by rewrite cleared_caller_next.
Qed.



(** X3: declining and cancelling write no field of the class, whatever
    their input: after handleRejectClick, handleAppRejectCall,
    handleCancelClick or handleAppCancelCall the state, ring timers and
    stored invite included, is the state before. *)
Theorem reject_and_cancel_leave_state st e :
  state_of (handleRejectClick st) = st
  /\ state_of (handleAppRejectCall e st) = st
  /\ state_of (handleCancelClick st) = st
  /\ state_of (handleAppCancelCall e st) = st.
Proof.
  split; [apply handleRejectClick_state|].
  split; [apply handleAppRejectCall_state|].
  split; [apply handleCancelClick_state | apply handleAppCancelCall_state].
Qed.


Lemma handleAppCancelCall_run st e :
  is_cancel (detail_of e) = true ->
  let d := detail_of e in
  handleAppCancelCall e st
  = (None, st, cancel_trace (prop d "callerId") (prop d "calleeId")).
Proof.
  unfold is_cancel. rewrite !andb_true_iff, !negb_true_iff.
  intros (((Hd & Ht) & H1) & H2). cbn zeta.
  unfold handleAppCancelCall. rewrite Hd, Ht, H1, H2. by run.
Qed.


(** X5: cancelling does not disarm the caller's ring timer.  After a
    taken app:call:start and a taken app:call:cancel the timeout armed by
    the start is still armed, and when it falls due a Timeout message is
    still sent to the callee, after the Cancelled. *)
Theorem cancel_leaves_ring_timer_armed st e1 e2 :
  is_start (detail_of e1) = true ->
  is_cancel (detail_of e2) = true ->
  let d := detail_of e1 in
  let st1 := state_of (handleAppStartCall e1 st) in
  let r2 := handleAppCancelCall e2 st1 in
  let r3 := fireTimer (nextTimerId st) (state_of r2) in
  sent FLAGS.CALL_CANCELLED (trace_of r2)
  = [VObj [("to", prop (detail_of e2) "calleeId");
           ("callerId", prop (detail_of e2) "callerId");
           ("calleeId", prop (detail_of e2) "calleeId")]]
  /\ _callerRingTimerId (state_of r2) = Some (nextTimerId st)
  /\ timers (state_of r2) !! nextTimerId st
     = Some (callerRingTimeout (prop d "callerId") (prop d "calleeId"))
  /\ sent FLAGS.CALL_TIMEOUT (trace_of r3)
     = [VObj [("to", prop d "calleeId"); ("callerId", prop d "callerId");
              ("calleeId", prop d "calleeId")]].
Proof.
  intros H1 H2. cbn zeta.
  rewrite (handleAppStartCall_run st e1 H1). unfold state_of, trace_of.
  cbn [fst snd]. rewrite !(handleAppCancelCall_run _ e2 H2). cbn [fst snd].
  split; [done|]. split; [done|].
  assert (Hl : forall c : State,
             <[nextTimerId st := callerRingTimeout (prop (detail_of e1) "callerId")
                                   (prop (detail_of e1) "calleeId")]> (timers c)
             !! nextTimerId st
             = Some (callerRingTimeout (prop (detail_of e1) "callerId")
                       (prop (detail_of e1) "calleeId")))
    by (intros; apply lookup_insert_eq).
  split; [apply Hl|].
  unfold fireTimer, clearTimeout, bind, gets. cbn [fst snd timers set_timers
    set_callerRingTimerId].
  rewrite Hl. by cbn.
Qed.

(** X6: an acceptance disarms the caller.  The Accepted message a taken
    app:call:accept sends passes the caller's listener; there it raises
    _inCallOrConnecting and clears the caller-side ring timer, so that the
    timeout armed when the call was started can no longer fire. *)
Theorem accepted_disarms_caller stB stA e id :
  is_accept (detail_of e) = true ->
  is_null (Invite.callerRole (_invite stB)) = false ->
  _callerRingTimerId stA = Some id ->
  let d := detail_of e in
  let accepted := VObj [("to", prop d "callerId"); ("callerId", prop d "callerId");
                        ("calleeId", prop d "calleeId")] in
  sent FLAGS.CALL_ACCEPTED (trace_of (handleAppAcceptCall e stB)) = [accepted]
  /\ refused FLAGS.CALL_ACCEPTED accepted = Some false
  /\ (let stA' := state_of (onSocketMessage FLAGS.CALL_ACCEPTED accepted stA) in
      _inCallOrConnecting stA' = true
      /\ _callerRingTimerId stA' = None
      /\ timers stA' !! id = None
      /\ fireTimer id stA' = (tt, stA', [])).
Proof.
  unfold is_accept. rewrite !andb_true_iff, !negb_true_iff.
  intros ((((Hd & Ht) & H1) & H2) & H3) Hrole Hid. cbn zeta.
  split.
  { unfold handleAppAcceptCall. rewrite Hd, Ht, H1, H2, H3. run.
    rewrite Hrole. by run. }
  split.
  { unfold refused, lacks. cbn. by rewrite H1, H2. }
  change (onSocketMessage FLAGS.CALL_ACCEPTED ?b stA)
    with (handleSocketAccepted b stA).
  unfold handleSocketAccepted. cbn [truthy negb prop assoc String.eqb Ascii.eqb
    Bool.eqb].
  rewrite H1, H2. run.
  pose proof (cleared_caller_disarms stA id Hid) as Hgone.
  split; [done|]. split; [apply cleared_caller_fields|]. split; [done|].
  unfold fireTimer, bind, gets. cbn. by rewrite Hgone.
Qed.

(* ---------------------------------------------------------------------- *)
(* The handshake between the two parties                                  *)
(* ---------------------------------------------------------------------- *)



Lemma createChimeMeeting_finish_truthy r chimeId fullMeeting :
  createChimeMeeting_finish r = Ok (chimeId, fullMeeting) ->
  truthy chimeId = true /\ truthy fullMeeting = true.
Proof.
  unfold createChimeMeeting_finish. destruct r as [m|response]; [done|].
  destruct (json response) as [data|]; [|done].
  destruct (get data "meetingId") as [meetingId|]; [|done].
  destruct (truthy meetingId) eqn:E1; [|done]. cbn [andb].
  destruct (truthy (prop data "meeting")) eqn:E2; [|done]. by intros [= <- <-].
Qed.

Lemma handleAppAcceptCall_run st e :
  is_accept (detail_of e) = true ->
  is_null (Invite.callerRole (_invite st)) = false ->
  let d := detail_of e in
  handleAppAcceptCall e st
  = (Some (awaitMeetingID viaAppEvent (prop d "callerId") (prop d "calleeId")
             (prop d "role")),
     set_currentSide (VStr "callee") st,
     dipatchUI "callee:callAccepted" "none"
       (VObj [("callerId", prop d "callerId"); ("calleeId", prop d "calleeId");
              ("role", prop d "role")])
     :: accept_trace (prop d "callerId") (prop d "calleeId")).
Proof.
  unfold is_accept. rewrite !andb_true_iff, !negb_true_iff.
  intros ((((Hd & Ht) & H1) & H2) & H3) Hrole. cbn zeta.
  unfold handleAppAcceptCall. rewrite Hd, Ht, H1, H2, H3. run.
  rewrite Hrole. by run.
Qed.



(* ---------------------------------------------------------------------- *)
(* Failure and recovery; the manual join end to end                       *)
(* ---------------------------------------------------------------------- *)





(* ---------------------------------------------------------------------- *)
(* What each event leaves alone                                           *)
(* ---------------------------------------------------------------------- *)

Lemma cleared_caller_rest st :
  _els (cleared_caller st) = _els st
  /\ _currentUserData (cleared_caller st) = _currentUserData st
  /\ _targetUserData (cleared_caller st) = _targetUserData st.
Proof. unfold cleared_caller. by destruct (_callerRingTimerId st). Qed.

Lemma cleared_callee_rest st :
  _els (cleared_callee st) = _els st
  /\ _currentUserData (cleared_callee st) = _currentUserData st
  /\ _targetUserData (cleared_callee st) = _targetUserData st.
Proof. unfold cleared_callee. by destruct (_calleeRingTimerId st). Qed.

Lemma untouched_refl st : untouched st st.
Proof. by repeat split. Qed.

Lemma untouched_trans st1 st2 st3 :
  untouched st1 st2 -> untouched st2 st3 -> untouched st1 st3.
Proof.
  intros (A1 & A2 & A3 & A4 & A5 & A6) (B1 & B2 & B3 & B4 & B5 & B6).
  repeat split; try congruence. auto.
Qed.

Lemma untouched_cleared_caller st : untouched st (cleared_caller st).
Proof. unfold cleared_caller. destruct (_callerRingTimerId st); by repeat split. Qed.

Lemma untouched_cleared_callee st : untouched st (cleared_callee st).
Proof. unfold cleared_callee. destruct (_calleeRingTimerId st); by repeat split. Qed.

(* A state that differs from [st'] in timers, handles, side, pending
   join and media type only is as untouched as [st'] is. *)
Lemma untouched_view st st' st'' :
  untouched st st' ->
  _els st'' = _els st' ->
  CALLEE_MANUAL_JOIN_ENABLED st'' = CALLEE_MANUAL_JOIN_ENABLED st' ->
  invite_parties st'' = invite_parties st' ->
  _currentUserData st'' = _currentUserData st' ->
  _targetUserData st'' = _targetUserData st' ->
  _inCallOrConnecting st'' = _inCallOrConnecting st' ->
  untouched st st''.
Proof.
  intros (A1 & A2 & A3 & A4 & A5 & A6) B1 B2 B3 B4 B5 B6.
  repeat split; try congruence. rewrite B6. auto.
Qed.

Lemma start_ringing_untouched st callerIdVal calleeIdVal ui :
  untouched st (state_of (start_ringing callerIdVal calleeIdVal ui st)).
Proof.
  unfold start_ringing. run.
  apply (untouched_view _ (cleared_caller (set_currentSide (VStr "caller") st)));
    [|done ..].
  apply (untouched_trans _ (set_currentSide (VStr "caller") st));
    [by repeat split | apply untouched_cleared_caller].
Qed.

Lemma handleStartInstantCallClick_untouched st :
  untouched st (state_of (handleStartInstantCallClick st)).
Proof.
  unfold handleStartInstantCallClick, state_of, bind, gets.
  cbn -[start_ringing].
  destruct (Els.callType (_els st)) as [callTypeVal|]; [|apply untouched_refl].
  destruct (Els.role (_els st)) as [callerRole|]; [|apply untouched_refl].
  destruct (Els.currentUserId (_els st)) as [callerIdVal|]; [|apply untouched_refl].
  destruct (Els.targetUserId (_els st)) as [calleeIdVal|]; [|apply untouched_refl].
  destruct (negb _); [apply untouched_refl|].
  destruct (missing callerIdVal); [apply untouched_refl|].
  destruct (missing calleeIdVal); [apply untouched_refl|].
  destruct (missing callerRole); [apply untouched_refl|].
  unfold emit. cbn -[start_ringing].
  match goal with
  | |- context [start_ringing ?a ?b ?ui ?s] =>
      pose proof (start_ringing_untouched s a b ui) as Hs;
      unfold state_of in Hs;
      by destruct (start_ringing a b ui s) as [[o st'] trace]
  end.
Qed.

Lemma initiateCall_untouched st mediaType :
  untouched st (state_of (_initiateCall mediaType st)).
Proof.
  unfold _initiateCall, state_of, bind, gets.
  cbn -[start_ringing].
  destruct (Els.role (_els st)) as [callerRole|]; [|apply untouched_refl].
  destruct (Els.currentUserId (_els st)) as [callerIdVal|]; [|apply untouched_refl].
  destruct (Els.targetUserId (_els st)) as [calleeIdVal|]; [|apply untouched_refl].
  destruct (missing callerIdVal); [apply untouched_refl|].
  destruct (missing calleeIdVal); [apply untouched_refl|].
  destruct (missing callerRole); [apply untouched_refl|].
  unfold emit, modify. cbn -[start_ringing].
  match goal with
  | |- context [start_ringing ?a ?b ?ui ?s] =>
      pose proof (start_ringing_untouched s a b ui) as Hs;
      unfold state_of in Hs;
      destruct (start_ringing a b ui s) as [[o st'] trace]; cbn [fst snd] in *;
      apply (untouched_trans _ s); [by repeat split | exact Hs]
  end.
Qed.

Lemma handleAppStartCall_untouched st e :
  untouched st (state_of (handleAppStartCall e st)).
Proof.
  unfold handleAppStartCall.
  repeat (match goal with |- context [if ?c then _ else _] => destruct c end;
          [apply untouched_refl |]).
  unfold state_of, bind, emit. cbn -[start_ringing].
  match goal with
  | |- context [start_ringing ?a ?b ?ui ?s] =>
      pose proof (start_ringing_untouched s a b ui) as Hs;
      unfold state_of in Hs;
      by destruct (start_ringing a b ui s) as [[o st'] trace]
  end.
Qed.

(* The Accept button raises the guard and touches nothing else here. *)
Lemma handleAcceptClick_leaves st :
  leaves (click btnAccept) st (state_of (handleAcceptClick st)).
Proof.
  assert (Hsame : leaves (click btnAccept) st st) by (by repeat split).
  unfold handleAcceptClick. run.
  destruct (Els.currentUserId (_els st)) as [calleeIdVal|]; [|done].
  destruct (Els.targetUserId (_els st)) as [callerIdVal|]; [|done].
  destruct (Els.callType (_els st)) as [callTypeVal|]; [|done].
  destruct (Els.role (_els st)) as [calleeRole|]; [|done].
  destruct (negb _); [done|].
  destruct (missing callerIdVal); [done|].
  destruct (missing calleeIdVal); [done|].
  destruct (missing calleeRole); [done|].
  run. destruct (is_null _); [done|]. run.
  destruct (untouched_cleared_callee st) as (A1 & A2 & A3 & A4 & A5 & A6).
  by repeat split.
Qed.

Lemma handleAppAcceptCall_untouched st e :
  untouched st (state_of (handleAppAcceptCall e st)).
Proof.
  unfold handleAppAcceptCall.
  repeat (match goal with |- context [if ?c then _ else _] => destruct c end;
          [apply untouched_refl |]).
  run. destruct (is_null _); run; by repeat split.
Qed.

Lemma handleManualCalleeJoin_untouched st :
  untouched st (state_of (handleManualCalleeJoin st)).
Proof.
  unfold handleManualCalleeJoin. run.
  destruct (_pendingCalleeJoin st); run; by repeat split.
Qed.

Lemma joinMeetingButtonClick_untouched st :
  untouched st (state_of (joinMeetingButtonClick st)).
Proof.
  pose proof (handleManualCalleeJoin_untouched st) as Hj.
  unfold joinMeetingButtonClick, state_of, bind, gets in *.
  cbn -[handleManualCalleeJoin].
  destruct (_pendingCalleeJoin st); [|apply untouched_refl].
  by destruct (handleManualCalleeJoin st) as [[o st'] trace].
Qed.

(* An inbound Initiate rewrites the invitation and nothing else here. *)
Lemma handleSocketIncomingCall_rest st body :
  let st' := state_of (handleSocketIncomingCall body st) in
  _els st' = _els st
  /\ CALLEE_MANUAL_JOIN_ENABLED st' = CALLEE_MANUAL_JOIN_ENABLED st
  /\ _currentUserData st' = _currentUserData st
  /\ _targetUserData st' = _targetUserData st
  /\ (_inCallOrConnecting st' = true -> _inCallOrConnecting st = true).
Proof.
  cbn zeta. unfold handleSocketIncomingCall.
  repeat (match goal with |- context [if ?c then _ else _] => destruct c end;
          [by run |]).
  run. destruct (_inCallOrConnecting st) eqn:Hg; run; [done|].
  match goal with
  | |- context [cleared_callee ?s] =>
      destruct (untouched_cleared_callee s) as (A1 & A2 & A3 & A4 & A5 & A6)
  end.
  cbn in *. repeat split; try done.
  intros Hr. apply A6 in Hr. by rewrite Hg in Hr.
Qed.

(* An inbound Accepted raises the guard and touches nothing else here. *)
Lemma handleSocketAccepted_rest st body :
  let st' := state_of (handleSocketAccepted body st) in
  _els st' = _els st
  /\ CALLEE_MANUAL_JOIN_ENABLED st' = CALLEE_MANUAL_JOIN_ENABLED st
  /\ invite_parties st' = invite_parties st
  /\ _currentUserData st' = _currentUserData st
  /\ _targetUserData st' = _targetUserData st.
Proof.
  cbn zeta. unfold handleSocketAccepted.
  repeat (match goal with |- context [if ?c then _ else _] => destruct c end;
          [by run |]).
  run. destruct (untouched_cleared_caller st) as (A1 & A2 & A3 & A4 & A5 & A6).
  by repeat split.
Qed.

Lemma handleSocketDeclined_untouched st body :
  untouched st (state_of (handleSocketDeclined body st)).
Proof.
  unfold handleSocketDeclined.
  repeat (match goal with |- context [if ?c then _ else _] => destruct c end;
          [apply untouched_refl |]).
  run. apply untouched_cleared_caller.
Qed.

Lemma cleared_both_untouched st : untouched st (cleared_callee (cleared_caller st)).
Proof.
  apply (untouched_trans _ (cleared_caller st));
    [apply untouched_cleared_caller | apply untouched_cleared_callee].
Qed.

Lemma handleSocketMeetingReady_untouched st body :
  untouched st (state_of (handleSocketMeetingReady body st)).
Proof.
  unfold handleSocketMeetingReady.
  repeat (match goal with |- context [if ?c then _ else _] => destruct c end;
          [apply untouched_refl |]).
  run. apply untouched_refl.
Qed.

Lemma untouched_leaves ev st st' : untouched st st' -> leaves ev st st'.
Proof. intros (A1 & A2 & A3 & A4 & A5 & A6). by repeat split. Qed.

Lemma onSocketMessage_leaves st flag body :
  leaves (socketMessage flag body) st (state_of (onSocketMessage flag body st)).
Proof.
  unfold onSocketMessage, leaves, is_incoming, raises_guard, is_userData.
  destruct (String.eqb flag FLAGS.CALL_INCOMING).
  { destruct (handleSocketIncomingCall_rest st body) as (A1 & A2 & A3 & A4 & A5).
    by repeat split. }
  destruct (String.eqb flag FLAGS.CALL_INITIATE).
  { destruct (handleSocketIncomingCall_rest st body) as (A1 & A2 & A3 & A4 & A5).
    by repeat split. }
  destruct (String.eqb flag FLAGS.CALL_ACCEPTED).
  { destruct (handleSocketAccepted_rest st body) as (A1 & A2 & A3 & A4 & A5).
    by repeat split. }
  cbn [orb].
  assert (Hu : forall st', untouched st st' ->
    _els st' = _els st
    /\ CALLEE_MANUAL_JOIN_ENABLED st' = CALLEE_MANUAL_JOIN_ENABLED st
    /\ (false = false -> invite_parties st' = invite_parties st)
    /\ (false = false ->
        _currentUserData st' = _currentUserData st
        /\ _targetUserData st' = _targetUserData st)
    /\ (false = false ->
        _inCallOrConnecting st' = true -> _inCallOrConnecting st = true)).
  { intros st' (A1 & A2 & A3 & A4 & A5 & A6). by repeat split. }
  destruct (String.eqb flag FLAGS.CALL_DECLINED);
    [apply Hu, handleSocketDeclined_untouched|].
  destruct (String.eqb flag FLAGS.CALL_TIMEOUT).
  { rewrite handleSocketTimeout_run. apply Hu.
    apply (untouched_trans _ (cleared_callee (cleared_caller st)));
      [apply cleared_both_untouched | by repeat split]. }
  destruct (String.eqb flag FLAGS.CALL_CANCELLED).
  { rewrite handleSocketCancelled_run. apply Hu, cleared_both_untouched. }
  destruct (String.eqb flag FLAGS.SELF_STOP_RING).
  { rewrite handleSocketSelfStopRinging_run. apply Hu, cleared_both_untouched. }
  destruct (String.eqb flag FLAGS.MEETING_READY);
    [apply Hu, handleSocketMeetingReady_untouched|].
  destruct (String.eqb flag FLAGS.MEETING_PROBLEM).
  { apply Hu. unfold handleSocketMeetingProblem. run. by repeat split. }
  destruct (String.eqb flag "meeting:status"); apply Hu; run; apply untouched_refl.
Qed.

Lemma fireTimer_untouched st id :
  untouched st (state_of (dispatch (timerFires id) st)).
Proof.
  unfold dispatch, fireTimer, clearTimeout, state_of.
  unfold bind at 1 2. unfold gets. cbn [fst snd].
  destruct (timers st !! id) as [[a b|]|]; cbn; by repeat split.
Qed.

Lemma resume_untouched t c st : untouched st (state_of (resume t c st)).
Proof.
  assert (Hcatch : forall a b m s, untouched s (state_of (calleeChainCatch a b m s)))
    by (by repeat split).
  assert (HafterId : forall p a b r m s,
             untouched s (state_of (afterMeetingID p a b r m s))).
  { intros. unfold afterMeetingID. run.
    destruct (CALLEE_MANUAL_JOIN_ENABLED s); apply untouched_refl. }
  assert (HafterChime : forall p a b r m ch f s,
             untouched s (state_of (afterChimeMeeting p a b r m ch f s))).
  { intros. unfold afterChimeMeeting. run.
    destruct (CALLEE_MANUAL_JOIN_ENABLED s) eqn:E; run; by repeat split. }
  destruct t, c; cbn -[getMeetingID_finish createChimeMeeting_finish
                        joinChimeMeeting_finish afterMeetingID afterChimeMeeting
                        calleeChainCatch joinThen joinCatch untouched].
  - destruct (getMeetingID_finish r); [apply HafterId | apply Hcatch].
  - apply untouched_refl.
  - destruct camMic as [[|]|];
      (destruct (createChimeMeeting_finish r) as [[chimeId fullMeeting]|];
       [first [apply HafterChime | apply untouched_refl] | apply Hcatch]).
  - destruct camMic as [[|]|]; apply untouched_refl.
  - apply untouched_refl.
  - apply HafterChime.
  - destruct (joinChimeMeeting_finish args r) as [joined|].
    + destruct who; by repeat split.
    + destruct who; by repeat split.
  - apply untouched_refl.
Qed.

Lemma dispatch_leaves ev st : leaves ev st (state_of (dispatch ev st)).
Proof.
  destruct ev as [button|name e|flag body|id|t c|currentUser targetUser];
    cbn [dispatch].
  - destruct button; cbn [onClick].
    + apply untouched_leaves, handleStartInstantCallClick_untouched.
    + apply untouched_leaves, initiateCall_untouched.
    + apply untouched_leaves, initiateCall_untouched.
    + apply handleAcceptClick_leaves.
    + rewrite handleRejectClick_state. apply untouched_leaves, untouched_refl.
    + rewrite handleCancelClick_state. apply untouched_leaves, untouched_refl.
    + apply untouched_leaves, joinMeetingButtonClick_untouched.
  - apply untouched_leaves. unfold onAppEvent.
    destruct (String.eqb name "app:call:start"); [apply handleAppStartCall_untouched|].
    destruct (String.eqb name "app:call:accept"); [apply handleAppAcceptCall_untouched|].
    destruct (String.eqb name "app:call:reject");
      [rewrite handleAppRejectCall_state; apply untouched_refl|].
    destruct (String.eqb name "app:call:cancel");
      [rewrite handleAppCancelCall_state; apply untouched_refl|].
    apply untouched_refl.
  - apply onSocketMessage_leaves.
  - apply untouched_leaves, fireTimer_untouched.
  - apply untouched_leaves, resume_untouched.
  - by repeat split.
Qed.

Lemma run_events_parties evs st :
  no_incoming evs -> invite_parties (run_events evs st).1 = invite_parties st.
Proof.
  revert st. induction evs as [|ev evs IH]; intros st H; [done|].
  apply Forall_cons_1 in H as [Hev Hevs]. cbn [run_events].
  pose proof (dispatch_leaves ev st) as (_ & _ & Hp & _). unfold state_of in Hp.
  destruct (dispatch ev st) as [[o st1] trace1]. cbn [fst snd] in Hp.
  specialize (IH st1 Hevs).
  destruct (run_events evs st1) as [st2 trace2]. cbn [fst] in *.
  rewrite IH. by apply Hp.
Qed.

(** X10: an invitation, once stored, is never withdrawn.  No event other
    than an inbound Initiate writes the caller id, callee id, caller role
    or user data of the stored invitation: not a Cancelled, Timeout or
    Declined from the peer, not a fired ring timeout, not a failed or
    completed join.  So after any such events an app:call:accept is still
    taken: it sends Accepted and starts provisioning, also when the caller
    has cancelled. *)
Theorem invitation_is_never_withdrawn evs st e :
  no_incoming evs ->
  is_null (Invite.callerRole (_invite st)) = false ->
  is_accept (detail_of e) = true ->
  let st' := (run_events evs st).1 in
  let d := detail_of e in
  invite_parties st' = invite_parties st
  /\ sent FLAGS.CALL_ACCEPTED (trace_of (handleAppAcceptCall e st'))
     = [VObj [("to", prop d "callerId"); ("callerId", prop d "callerId");
              ("calleeId", prop d "calleeId")]]
  /\ result_of (handleAppAcceptCall e st')
     = Some (awaitMeetingID viaAppEvent (prop d "callerId") (prop d "calleeId")
               (prop d "role")).
Proof.
  intros Hevs Hrole He st' d.
  pose proof (run_events_parties evs st Hevs) as Hp. fold st' in Hp.
  split; [exact Hp|].
  assert (Hrole' : is_null (Invite.callerRole (_invite st')) = false).
  { unfold invite_parties in Hp. by injection Hp as _ _ -> _ _. }
  rewrite (handleAppAcceptCall_run st' e He Hrole'). by split.
Qed.

(** X11: Accept needs an invitation.  While the stored caller role is
    null, as it is on a fresh page, and no Initiate has arrived since,
    neither the Accept button nor app:call:accept does anything: nothing
    is sent, no request is made, the state is unchanged. *)
Theorem accept_needs_an_invitation evs st e :
  no_incoming evs ->
  is_null (Invite.callerRole (_invite st)) = true ->
  let st' := (run_events evs st).1 in
  handleAcceptClick st' = (None, st', [])
  /\ handleAppAcceptCall e st' = (None, st', []).
Proof.
  intros Hevs Hrole st'.
  pose proof (run_events_parties evs st Hevs) as Hp. fold st' in Hp.
  assert (Hrole' : is_null (Invite.callerRole (_invite st')) = true).
  { unfold invite_parties in Hp. by injection Hp as _ _ -> _ _. }
  split.
  - unfold handleAcceptClick. run.
    destruct (Els.currentUserId (_els st')) as [calleeIdVal|]; [|done].
    destruct (Els.targetUserId (_els st')) as [callerIdVal|]; [|done].
    destruct (Els.callType (_els st')) as [callTypeVal|]; [|done].
    destruct (Els.role (_els st')) as [calleeRole|]; [|done].
    destruct (negb _); [done|].
    destruct (missing callerIdVal); [done|].
    destruct (missing calleeIdVal); [done|].
    destruct (missing calleeRole); [done|].
    run. by rewrite Hrole'.
  - unfold handleAppAcceptCall.
    repeat (match goal with |- context [if ?c then _ else _] => destruct c end;
            [by run |]).
    run. by rewrite Hrole'.
Qed.

(** X12: the busy guard is raised by acceptance only.  If an event takes
    _inCallOrConnecting from false to true, the event is a click on the
    Accept button or an inbound Accepted message; starting a call,
    receiving an Initiate, accepting through app:call:accept, a step of a
    chain and a fired timeout never raise it. *)
Theorem guard_raised_by_acceptance_only ev st :
  _inCallOrConnecting st = false ->
  _inCallOrConnecting (state_of (dispatch ev st)) = true ->
  ev = click btnAccept \/ exists body, ev = socketMessage FLAGS.CALL_ACCEPTED body.
Proof.
  intros Hdown Hup.
  pose proof (dispatch_leaves ev st) as (_ & _ & _ & _ & Hg).
  destruct (raises_guard ev) eqn:Hr.
  - destruct ev as [[| | | | | |]| |flag body| | |]; try done; [by left|].
    right. exists body. cbn in Hr. by apply String.eqb_eq in Hr as ->.
  - specialize (Hg eq_refl Hup). by rewrite Hdown in Hg.
Qed.

(* ---------------------------------------------------------------------- *)
(* Media type and user data                                               *)
(* ---------------------------------------------------------------------- *)

Lemma start_ringing_invite st callerIdVal calleeIdVal ui :
  _invite (state_of (start_ringing callerIdVal calleeIdVal ui st)) = _invite st.
Proof. unfold start_ringing. run. by rewrite cleared_caller_invite. Qed.

(** X13: the media type and the user data of a call started with the
    audio or video button reach the callee.  The Initiate that
    _initiateCall sends, taken by a callee whose guard is down, makes the
    callee store the caller's media type and the caller's user data (null
    for data that is missing), and raise the incoming-audio state for
    "audio" and the incoming-video state otherwise; the caller stores the
    same media type for its own join. *)
Theorem media_type_reaches_callee stA stB mediaType initiate :
  truthy mediaType = true ->
  sent FLAGS.CALL_INITIATE (trace_of (_initiateCall mediaType stA)) = [initiate] ->
  _inCallOrConnecting stB = false ->
  let stA' := state_of (_initiateCall mediaType stA) in
  let rB := handleSocketIncomingCall initiate stB in
  Invite.callType (_invite stA') = mediaType
  /\ Invite.callType (_invite (state_of rB)) = mediaType
  /\ Invite.callerData (_invite (state_of rB)) = js_or (_currentUserData stA) VNull
  /\ Invite.calleeData (_invite (state_of rB)) = js_or (_targetUserData stA) VNull
  /\ exists payload,
       dipatchUI (if is_str mediaType "audio" then "callee:incomingAudioCall"
                  else "callee:incomingVideoCall") "none" payload
       ∈ trace_of rB.
Proof.
  intros Hm Hsent Hfree. cbn zeta.
  unfold _initiateCall, trace_of, state_of, bind, gets in *.
  cbn -[start_ringing sent] in *.
  destruct (Els.role (_els stA)) as [callerRole|]; [|done].
  destruct (Els.currentUserId (_els stA)) as [callerIdVal|]; [|done].
  destruct (Els.targetUserId (_els stA)) as [calleeIdVal|]; [|done].
  destruct (missing callerIdVal) eqn:H1; [done|].
  destruct (missing calleeIdVal) eqn:H2; [done|].
  destruct (missing callerRole) eqn:H3; [done|].
  unfold emit, modify in *. cbn -[start_ringing sent] in *.
  match type of Hsent with
  | context [start_ringing ?a ?b ?ui ?s] =>
      pose proof (start_ringing_sent s FLAGS.CALL_INITIATE a b ui) as Hs;
      pose proof (start_ringing_invite s a b ui) as Hi;
      unfold trace_of, state_of in Hs, Hi;
      destruct (start_ringing a b ui s) as [[o st'] trace] eqn:E
  end.
  cbn in Hs, Hi, Hsent |- *. rewrite Hs in Hsent. injection Hsent as <-.
  split; [by rewrite Hi|].
  unfold handleSocketIncomingCall. cbn. rewrite H1, H2, H3. run.
  rewrite Hfree. run. rewrite !cleared_callee_invite. cbn.
  unfold js_or at 1. rewrite Hm.
  split; [done|]. split; [done|]. split; [done|].
  unfold js_or at 1. rewrite Hm.
  eexists. apply elem_of_cons. right. apply elem_of_cons. by left.
Qed.

(** X14: a call started with the plain Start button or through
    app:call:start carries no media type.  The callee who takes its
    Initiate stores "video" and null user data and raises the
    incoming-video state, while the caller's own stored media type, which
    its join will use, stays whatever an earlier call left there. *)
Theorem plain_start_rings_as_video stA stB e :
  is_start (detail_of e) = true ->
  _inCallOrConnecting stB = false ->
  let rA := handleAppStartCall e stA in
  forall initiate, sent FLAGS.CALL_INITIATE (trace_of rA) = [initiate] ->
  let rB := handleSocketIncomingCall initiate stB in
  Invite.callType (_invite (state_of rA)) = Invite.callType (_invite stA)
  /\ Invite.callType (_invite (state_of rB)) = VStr "video"
  /\ Invite.callerData (_invite (state_of rB)) = VNull
  /\ Invite.calleeData (_invite (state_of rB)) = VNull
  /\ exists payload,
       dipatchUI "callee:incomingVideoCall" "none" payload ∈ trace_of rB.
Proof.
  intros He Hfree rA initiate Hsent rB. unfold rA, rB in *. clear rA rB.
  rewrite (handleAppStartCall_run stA e He) in *.
  apply is_start_guards in He as (Hd & Ht & H1 & H2 & H3).
  unfold trace_of, state_of in *. cbn in Hsent |- *. injection Hsent as <-.
  split; [by rewrite cleared_caller_invite|].
  unfold handleSocketIncomingCall. cbn. rewrite Ht, H1, H2, H3. run.
  rewrite Hfree. run. rewrite !cleared_callee_invite. cbn.
  split; [done|]. split; [done|]. split; [done|].
  eexists. apply elem_of_cons. right. apply elem_of_cons. by left.
Qed.

(* ---------------------------------------------------------------------- *)
(* An unanswered call                                                     *)
(* ---------------------------------------------------------------------- *)


(* ---------------------------------------------------------------------- *)
(* What a join hands to the Chime handler; HTTP status                    *)
(* ---------------------------------------------------------------------- *)

Lemma attendee_for_truthy data decoded userId :
  truthy (attendee_for data decoded userId) = true.
Proof.
  unfold attendee_for.
  destruct (truthy (prop data "meetingInfo")); [|done].
  destruct decoded as [d|]; [|done].
  destruct (get d "MediaPlacement"); [|done].
  by destruct (truthy (prop d "Attendee")) eqn:E.
Qed.

Lemma js_or_truthy a b : truthy b = true -> truthy (js_or a b) = true.
Proof. intros Hb. unfold js_or. by destruct (truthy a) eqn:E. Qed.

(* A join that succeeds had an ok response, and hands on a meeting that
   carries MediaPlacement and an attendee. *)
Lemma joinChimeMeeting_finish_ok args r meeting attendee :
  joinChimeMeeting_finish args r = Ok (meeting, attendee) ->
  (exists response, r = Resolved response /\ ok response = true)
  /\ truthy (prop meeting "MediaPlacement") = true
  /\ truthy attendee = true.
Proof.
  unfold joinChimeMeeting_finish. destruct r as [m|response]; [done|].
  destruct (ok response) eqn:Hok; [|done]. cbn [negb].
  destruct (json response) as [data|]; [|done].
  destruct (get data "success") as [success|]; [|done].
  destruct (negb (truthy success) || negb (truthy (prop data "attendeeId")));
    [done|].
  unfold validate.
  pose proof (extract_attendee data (meetingInfoDecoded response)
                (Join.chimeMeetingId args) (Join.fullMeeting args)
                (Join.userId args)) as Ha.
  destruct (extract _ _ _ _) as [[m|] a]; cbn [fst snd] in *; [|done].
  destruct (truthy m); [|done]. cbn [negb orb].
  destruct (truthy (prop m "MediaPlacement")) eqn:Hpl; [|done]. cbn [negb].
  intros [= <- <-]. split; [by exists response|]. split; [done|].
  rewrite Ha. apply attendee_for_truthy.
Qed.

(** X16: what reaches the Chime handler is complete.  Whatever step of
    whatever chain runs, a chime:join:meeting event is dispatched only by
    an addAttendee request that completed with an ok response, and its
    detail then names a meeting that carries MediaPlacement, an attendee,
    the joiner's id and role, and a media type that is never empty. *)
Theorem join_event_is_complete t c st detail :
  dispatchEvent "chime:join:meeting" detail ∈ trace_of (resume t c st) ->
  truthy (prop (prop (prop detail "meetingInfo") "Meeting") "MediaPlacement") = true
  /\ truthy (prop (prop detail "attendeeInfo") "Attendee") = true
  /\ truthy (prop detail "callType") = true
  /\ exists who args response,
       t = awaitAddAttendee who args
       /\ c = fetched (Resolved response)
       /\ ok response = true
       /\ prop detail "userId" = Join.userId args
       /\ prop detail "role" = Join.role args.
Proof.
  assert (Hcatch : forall a b m s,
             dispatchEvent "chime:join:meeting" detail
             ∈ trace_of (calleeChainCatch a b m s) -> False).
  { intros a b m s Hin. unfold calleeChainCatch in Hin. revert Hin. run.
    intros Hin.
    repeat (apply elem_of_cons in Hin as [Hin | Hin]; [discriminate|]).
    by apply elem_of_nil in Hin. }
  assert (HafterId : forall p a b r m s,
             dispatchEvent "chime:join:meeting" detail
             ∈ trace_of (afterMeetingID p a b r m s) -> False).
  { intros p a b r m s Hin. unfold afterMeetingID in Hin. revert Hin. run.
    destruct (CALLEE_MANUAL_JOIN_ENABLED s); run; intros Hin;
      repeat (apply elem_of_cons in Hin as [Hin | Hin]; [discriminate|]);
      by apply elem_of_nil in Hin. }
  assert (HafterChime : forall p a b r m ch f s,
             dispatchEvent "chime:join:meeting" detail
             ∈ trace_of (afterChimeMeeting p a b r m ch f s) -> False).
  { intros p a b r m ch f s Hin. unfold afterChimeMeeting in Hin. revert Hin. run.
    destruct (CALLEE_MANUAL_JOIN_ENABLED s); run; intros Hin;
      repeat (apply elem_of_cons in Hin as [Hin | Hin]; [discriminate|]);
      by apply elem_of_nil in Hin. }
  destruct t as [p a b r|p a b r m cam|p a b r m ch f|who args], c as [fr|];
    cbn -[getMeetingID_finish createChimeMeeting_finish joinChimeMeeting_finish
          afterMeetingID afterChimeMeeting calleeChainCatch joinThen joinCatch
          trace_of].
  - destruct (getMeetingID_finish fr); intros Hin;
      [by apply HafterId in Hin | by apply Hcatch in Hin].
  - by intros Hin%elem_of_nil.
  - destruct cam as [[|]|];
      (destruct (createChimeMeeting_finish fr) as [[chimeId fullMeeting]|];
       intros Hin;
       [first [by apply HafterChime in Hin | by apply elem_of_nil in Hin]
       | by apply Hcatch in Hin]).
  - destruct cam as [[|]|]; by intros Hin%elem_of_nil.
  - by intros Hin%elem_of_nil.
  - intros Hin. by apply HafterChime in Hin.
  - destruct (joinChimeMeeting_finish args fr) as [[meeting attendee]|message] eqn:E.
    + apply joinChimeMeeting_finish_ok in E as ((response & -> & Hok) & Hpl & Hat).
      intros Hin.
      assert (Hd : detail
                   = VObj [("meetingInfo", VObj [("Meeting", meeting)]);
                           ("attendeeInfo", VObj [("Attendee", attendee)]);
                           ("userId", Join.userId args);
                           ("role", Join.role args);
                           ("callType", js_or (Join.callType args) (VStr "video"))]).
      { revert Hin. destruct who; run; intros Hin;
          apply elem_of_cons in Hin as [Hin | Hin];
          try (by injection Hin);
          repeat (apply elem_of_cons in Hin as [Hin | Hin]; [discriminate|]);
          by apply elem_of_nil in Hin. }
      rewrite Hd. cbn. split; [done|]. split; [done|].
      split; [by apply js_or_truthy|].
      by exists who, args, response.
    + intros Hin. exfalso. revert Hin.
      destruct who; [apply Hcatch| |]; run; intros Hin;
        repeat (apply elem_of_cons in Hin as [Hin | Hin]; [discriminate|]);
        by apply elem_of_nil in Hin.
  - by intros Hin%elem_of_nil.
Qed.

(** X17: the HTTP status is checked by two of the three requests.  A
    response that is not ok makes getMeetingID and joinChimeMeeting throw
    whatever its body says, the join with the status code and text in the
    message; createChimeMeeting never looks at the status: its outcome is
    that of any response with the same JSON body. *)
Theorem http_status_checked_except_by_create args response :
  ok response = false ->
  (exists message, getMeetingID_finish (Resolved response) = Throw message)
  /\ joinChimeMeeting_finish args (Resolved response)
     = Throw ("addAttendee failed: " ++ pretty (status response) ++ " "
              ++ statusText response)
  /\ forall response', json response' = json response ->
       createChimeMeeting_finish (Resolved response')
       = createChimeMeeting_finish (Resolved response).
Proof.
  intros Hok. unfold getMeetingID_finish, joinChimeMeeting_finish,
    createChimeMeeting_finish. rewrite Hok. cbn [negb].
  split; [by eexists|]. split; [done|]. by intros response' ->.
Qed.

(* ---------------------------------------------------------------------- *)
(* What goes over the socket                                              *)
(* ---------------------------------------------------------------------- *)

Ltac in_protocol :=
  unfold protocol; repeat (apply elem_of_cons; first [by left | right]).

Ltac conforms_done :=
  repeat first
    [ apply Forall_nil_2
    | assumption
    | apply Forall_cons_2; [first [exact I | split; [in_protocol | done]] |] ].

Lemma start_ringing_conforms st callerIdVal calleeIdVal ui :
  Forall conforms (trace_of (start_ringing callerIdVal calleeIdVal ui st)).
Proof. unfold start_ringing. run. conforms_done. Qed.

Lemma handleStartInstantCallClick_conforms st :
  Forall conforms (trace_of (handleStartInstantCallClick st)).
Proof.
  unfold handleStartInstantCallClick, trace_of, bind, gets.
  cbn -[start_ringing].
  destruct (Els.callType (_els st)) as [callTypeVal|]; [|conforms_done].
  destruct (Els.role (_els st)) as [callerRole|]; [|conforms_done].
  destruct (Els.currentUserId (_els st)) as [callerIdVal|]; [|conforms_done].
  destruct (Els.targetUserId (_els st)) as [calleeIdVal|]; [|conforms_done].
  destruct (negb _); [conforms_done|].
  destruct (missing callerIdVal); [conforms_done|].
  destruct (missing calleeIdVal); [conforms_done|].
  destruct (missing callerRole); [conforms_done|].
  unfold emit. cbn -[start_ringing].
  match goal with
  | |- context [start_ringing ?a ?b ?ui ?s] =>
      pose proof (start_ringing_conforms s a b ui) as Hs;
      unfold trace_of in Hs;
      destruct (start_ringing a b ui s) as [[o st'] trace]
  end.
  cbn in *. conforms_done.
Qed.

Lemma initiateCall_conforms st mediaType :
  Forall conforms (trace_of (_initiateCall mediaType st)).
Proof.
  unfold _initiateCall, trace_of, bind, gets.
  cbn -[start_ringing].
  destruct (Els.role (_els st)) as [callerRole|]; [|conforms_done].
  destruct (Els.currentUserId (_els st)) as [callerIdVal|]; [|conforms_done].
  destruct (Els.targetUserId (_els st)) as [calleeIdVal|]; [|conforms_done].
  destruct (missing callerIdVal); [conforms_done|].
  destruct (missing calleeIdVal); [conforms_done|].
  destruct (missing callerRole); [conforms_done|].
  unfold emit, modify. cbn -[start_ringing].
  match goal with
  | |- context [start_ringing ?a ?b ?ui ?s] =>
      pose proof (start_ringing_conforms s a b ui) as Hs;
      unfold trace_of in Hs;
      destruct (start_ringing a b ui s) as [[o st'] trace]
  end.
  cbn in *. conforms_done.
Qed.

Lemma handleAppStartCall_conforms st e :
  Forall conforms (trace_of (handleAppStartCall e st)).
Proof.
  unfold handleAppStartCall, start_ringing.
  repeat (match goal with |- context [if ?c then _ else _] => destruct c end;
          [solve [run; conforms_done] |]).
  run. conforms_done.
Qed.

Lemma handleAcceptClick_conforms st :
  Forall conforms (trace_of (handleAcceptClick st)).
Proof.
  unfold handleAcceptClick. run.
  destruct (Els.currentUserId (_els st)) as [calleeIdVal|]; [|conforms_done].
  destruct (Els.targetUserId (_els st)) as [callerIdVal|]; [|conforms_done].
  destruct (Els.callType (_els st)) as [callTypeVal|]; [|conforms_done].
  destruct (Els.role (_els st)) as [calleeRole|]; [|conforms_done].
  destruct (negb _); [conforms_done|].
  destruct (missing callerIdVal); [conforms_done|].
  destruct (missing calleeIdVal); [conforms_done|].
  destruct (missing calleeRole); [conforms_done|].
  run. destruct (is_null _); [conforms_done|]. run. conforms_done.
Qed.

Lemma handleAppAcceptCall_conforms st e :
  Forall conforms (trace_of (handleAppAcceptCall e st)).
Proof.
  unfold handleAppAcceptCall.
  repeat (match goal with |- context [if ?c then _ else _] => destruct c end;
          [solve [run; conforms_done] |]).
  run. destruct (is_null _); run; conforms_done.
Qed.

Lemma handleRejectClick_conforms st :
  Forall conforms (trace_of (handleRejectClick st)).
Proof.
  unfold handleRejectClick. run.
  destruct (Els.currentUserId (_els st)); [|conforms_done].
  destruct (Els.targetUserId (_els st)); [|conforms_done].
  destruct (Els.callType (_els st)); [|conforms_done].
  destruct (Els.rejectReason (_els st)); [|conforms_done].
  repeat (match goal with |- context [if ?c then _ else _] => destruct c end;
          [solve [conforms_done] |]).
  conforms_done.
Qed.

Lemma handleAppRejectCall_conforms st e :
  Forall conforms (trace_of (handleAppRejectCall e st)).
Proof.
  unfold handleAppRejectCall.
  repeat (match goal with |- context [if ?c then _ else _] => destruct c end;
          [solve [run; conforms_done] |]).
  run. conforms_done.
Qed.

Lemma handleCancelClick_conforms st :
  Forall conforms (trace_of (handleCancelClick st)).
Proof.
  unfold handleCancelClick. run.
  destruct (Els.currentUserId (_els st)); [|conforms_done].
  destruct (Els.targetUserId (_els st)); [|conforms_done].
  destruct (Els.callType (_els st)); [|conforms_done].
  repeat (match goal with |- context [if ?c then _ else _] => destruct c end;
          [solve [conforms_done] |]).
  conforms_done.
Qed.

Lemma handleAppCancelCall_conforms st e :
  Forall conforms (trace_of (handleAppCancelCall e st)).
Proof.
  unfold handleAppCancelCall.
  repeat (match goal with |- context [if ?c then _ else _] => destruct c end;
          [solve [run; conforms_done] |]).
  run. conforms_done.
Qed.

Lemma handleManualCalleeJoin_conforms st :
  Forall conforms (trace_of (handleManualCalleeJoin st)).
Proof.
  unfold handleManualCalleeJoin. run.
  destruct (_pendingCalleeJoin st); run; conforms_done.
Qed.

Lemma joinMeetingButtonClick_conforms st :
  Forall conforms (trace_of (joinMeetingButtonClick st)).
Proof.
  pose proof (handleManualCalleeJoin_conforms st) as Hj.
  unfold joinMeetingButtonClick, trace_of, bind, gets in *.
  cbn -[handleManualCalleeJoin].
  destruct (_pendingCalleeJoin st); [|conforms_done].
  destruct (handleManualCalleeJoin st) as [[o st'] trace]. cbn in *. conforms_done.
Qed.

Lemma onSocketMessage_conforms st flag body :
  Forall conforms (trace_of (onSocketMessage flag body st)).
Proof.
  assert (Hin : Forall conforms (trace_of (handleSocketIncomingCall body st))).
  { unfold handleSocketIncomingCall.
    repeat (match goal with |- context [if ?c then _ else _] => destruct c end;
            [solve [run; conforms_done] |]).
    run. destruct (_inCallOrConnecting st); run; conforms_done. }
  unfold onSocketMessage.
  destruct (String.eqb flag FLAGS.CALL_INCOMING); [exact Hin|].
  destruct (String.eqb flag FLAGS.CALL_INITIATE); [exact Hin|].
  destruct (String.eqb flag FLAGS.CALL_ACCEPTED).
  { unfold handleSocketAccepted.
    repeat (match goal with |- context [if ?c then _ else _] => destruct c end;
            [solve [run; conforms_done] |]).
    run. conforms_done. }
  destruct (String.eqb flag FLAGS.CALL_DECLINED).
  { unfold handleSocketDeclined.
    repeat (match goal with |- context [if ?c then _ else _] => destruct c end;
            [solve [run; conforms_done] |]).
    run. conforms_done. }
  destruct (String.eqb flag FLAGS.CALL_TIMEOUT).
  { rewrite handleSocketTimeout_run. unfold trace_of. cbn [snd]. conforms_done. }
  destruct (String.eqb flag FLAGS.CALL_CANCELLED).
  { rewrite handleSocketCancelled_run. unfold trace_of. cbn [snd]. conforms_done. }
  destruct (String.eqb flag FLAGS.SELF_STOP_RING).
  { rewrite handleSocketSelfStopRinging_run. unfold trace_of. cbn [snd].
    conforms_done. }
  destruct (String.eqb flag FLAGS.MEETING_READY).
  { unfold handleSocketMeetingReady.
    repeat (match goal with |- context [if ?c then _ else _] => destruct c end;
            [solve [run; conforms_done] |]).
    run. conforms_done. }
  destruct (String.eqb flag FLAGS.MEETING_PROBLEM).
  { unfold handleSocketMeetingProblem. run. conforms_done. }
  destruct (String.eqb flag "meeting:status"); run; conforms_done.
Qed.

Lemma fireTimer_conforms st id :
  Forall conforms (trace_of (dispatch (timerFires id) st)).
Proof.
  unfold dispatch, fireTimer, clearTimeout, trace_of.
  unfold bind at 1 2. unfold gets. cbn [fst snd].
  destruct (timers st !! id) as [[a b|]|]; cbn; conforms_done.
Qed.

Lemma resume_conforms t c st : Forall conforms (trace_of (resume t c st)).
Proof.
  assert (Hcatch : forall a b m s,
             Forall conforms (trace_of (calleeChainCatch a b m s))).
  { intros. unfold calleeChainCatch. run. conforms_done. }
  assert (HafterId : forall p a b r m s,
             Forall conforms (trace_of (afterMeetingID p a b r m s))).
  { intros. unfold afterMeetingID. run.
    destruct (CALLEE_MANUAL_JOIN_ENABLED s); run; conforms_done. }
  assert (HafterChime : forall p a b r m ch f s,
             Forall conforms (trace_of (afterChimeMeeting p a b r m ch f s))).
  { intros. unfold afterChimeMeeting. run.
    destruct (CALLEE_MANUAL_JOIN_ENABLED s); run; conforms_done. }
  destruct t, c; cbn -[getMeetingID_finish createChimeMeeting_finish
                        joinChimeMeeting_finish afterMeetingID afterChimeMeeting
                        calleeChainCatch joinThen joinCatch trace_of].
  - destruct (getMeetingID_finish r); [apply HafterId | apply Hcatch].
  - conforms_done.
  - destruct camMic as [[|]|];
      (destruct (createChimeMeeting_finish r) as [[chimeId fullMeeting]|];
       [first [apply HafterChime | run; conforms_done] | apply Hcatch]).
  - destruct camMic as [[|]|]; run; conforms_done.
  - run. conforms_done.
  - apply HafterChime.
  - destruct (joinChimeMeeting_finish args r) as [joined|].
    + destruct who; run; conforms_done.
    + destruct who; [apply Hcatch| |]; run; conforms_done.
  - run. conforms_done.
Qed.

Lemma dispatch_conforms ev st : Forall conforms (trace_of (dispatch ev st)).
Proof.
  destruct ev as [button|name e|flag body|id|t c|currentUser targetUser];
    cbn [dispatch].
  - destruct button; cbn [onClick].
    + apply handleStartInstantCallClick_conforms.
    + apply initiateCall_conforms.
    + apply initiateCall_conforms.
    + apply handleAcceptClick_conforms.
    + apply handleRejectClick_conforms.
    + apply handleCancelClick_conforms.
    + apply joinMeetingButtonClick_conforms.
  - unfold onAppEvent.
    destruct (String.eqb name "app:call:start"); [apply handleAppStartCall_conforms|].
    destruct (String.eqb name "app:call:accept"); [apply handleAppAcceptCall_conforms|].
    destruct (String.eqb name "app:call:reject"); [apply handleAppRejectCall_conforms|].
    destruct (String.eqb name "app:call:cancel"); [apply handleAppCancelCall_conforms|].
    run. conforms_done.
  - apply onSocketMessage_conforms.
  - apply fireTimer_conforms.
  - apply resume_conforms.
  - run. conforms_done.
Qed.

(** X18: only protocol messages go over the socket.  Whatever events
    arrive in whatever state, every message handed to
    SocketHandler.sendSocketMessage is an Initiate, Accepted, Declined,
    Cancelled, Timeout, SelfStopRing, MeetingReady or MeetingProblem sent
    under the schema of its kind, or a meeting:status sent without one;
    its payload has a to field and every field its schema lists.
    No call:incoming, call:ringing, call:ended or meeting:connect is ever
    sent. *)
Theorem only_protocol_messages_are_sent evs st flag payload schema :
  sendSocketMessage flag payload schema ∈ (run_events evs st).2 ->
  (flag, schema) ∈ protocol
  /\ has_fields ("to" :: default [] schema) payload = true
  /\ flag ∉ [FLAGS.CALL_INCOMING; FLAGS.CALL_RINGING; FLAGS.CALL_ENDED;
             FLAGS.MEETING_CONNECT].
Proof.
  assert (Hall : forall evs st, Forall conforms (run_events evs st).2).
  { clear. intros evs. induction evs as [|ev evs IH]; intros st; [by constructor|].
    cbn [run_events].
    pose proof (dispatch_conforms ev st) as H1. unfold trace_of in H1.
    destruct (dispatch ev st) as [[o st1] trace1]. cbn [snd] in H1.
    specialize (IH st1). destruct (run_events evs st1) as [st2 trace2].
    cbn [snd] in *. by apply Forall_app. }
  intros Hin. specialize (Hall evs st).
  rewrite Forall_forall in Hall. apply Hall in Hin as [Hp Hf].
  split; [exact Hp|]. split; [exact Hf|].
  intros Hbad. unfold protocol in Hp.
  repeat (apply elem_of_cons in Hp as [Hp | Hp];
          [injection Hp as -> _;
           repeat (apply elem_of_cons in Hbad as [Hbad | Hbad]; [discriminate|]);
           by apply elem_of_nil in Hbad|]).
  by apply elem_of_nil in Hp.
Qed.

(* ---------------------------------------------------------------------- *)
(* Local input                                                            *)
(* ---------------------------------------------------------------------- *)

(** X19: an app event whose detail fails its handler's check is dropped.
    For app:call:start, app:call:accept, app:call:reject and
    app:call:cancel, a missing detail, a call type other than the instant
    one, or a missing or empty caller id, callee id, role (start, accept)
    or reason (reject) makes the handler return with the state unchanged
    and nothing sent, shown or requested; so does any other event name. *)
Theorem invalid_app_event_is_dropped name e st :
  app_event_taken name (detail_of e) = false ->
  onAppEvent name e st = (None, st, []).
Proof.
  unfold app_event_taken, onAppEvent.
  destruct (String.eqb name "app:call:start").
  { unfold is_start, handleAppStartCall. intros H.
    repeat (match goal with |- context [if ?c then _ else _] =>
              destruct c eqn:? end; [done |]).
    exfalso. revert H. rewrite !andb_false_iff, !negb_false_iff.
    repeat match goal with H' : negb _ = false |- _ =>
             apply negb_false_iff in H' end.
    intros [[[[H|H]|H]|H]|H]; congruence. }
  destruct (String.eqb name "app:call:accept").
  { unfold is_accept, handleAppAcceptCall. intros H.
    repeat (match goal with |- context [if ?c then _ else _] =>
              destruct c eqn:? end; [done |]).
    exfalso. revert H. rewrite !andb_false_iff, !negb_false_iff.
    repeat match goal with H' : negb _ = false |- _ =>
             apply negb_false_iff in H' end.
    intros [[[[H|H]|H]|H]|H]; congruence. }
  destruct (String.eqb name "app:call:reject").
  { unfold is_reject, handleAppRejectCall. intros H.
    repeat (match goal with |- context [if ?c then _ else _] =>
              destruct c eqn:? end; [done |]).
    exfalso. revert H. rewrite !andb_false_iff, !negb_false_iff.
    repeat match goal with H' : negb _ = false |- _ =>
             apply negb_false_iff in H' end.
    intros [[[[H|H]|H]|H]|H]; congruence. }
  destruct (String.eqb name "app:call:cancel"); [|done].
  unfold is_cancel, handleAppCancelCall. intros H.
  repeat (match goal with |- context [if ?c then _ else _] =>
            destruct c eqn:? end; [done |]).
  exfalso. revert H. rewrite !andb_false_iff, !negb_false_iff.
  repeat match goal with H' : negb _ = false |- _ =>
           apply negb_false_iff in H' end.
  intros [[[H|H]|H]|H]; congruence.
Qed.

(** X20: the call-type input gates the plain buttons and not the audio
    and video buttons.  When it is missing or holds another call type, a
    click on Start, Accept, Reject or Cancel does nothing at all; the
    audio and video buttons never read it: what _initiateCall returns and
    emits is the same for every value of that input, and the Initiate it
    sends always names the instant call type. *)
Theorem call_type_input_gates_plain_buttons st :
  instant_selected st = false ->
  onClick btnStart st = (None, st, [])
  /\ onClick btnAccept st = (None, st, [])
  /\ onClick btnReject st = (None, st, [])
  /\ onClick btnCancel st = (None, st, [])
  /\ forall mediaType v,
       result_of (_initiateCall mediaType (with_callType v st))
       = result_of (_initiateCall mediaType st)
       /\ trace_of (_initiateCall mediaType (with_callType v st))
          = trace_of (_initiateCall mediaType st)
       /\ forall payload,
            payload ∈ sent FLAGS.CALL_INITIATE (trace_of (_initiateCall mediaType st)) ->
            prop payload "callType" = VStr TYPE_INSTANT.
Proof.
  unfold instant_selected. intros Hsel. cbn [onClick].
  split.
  { unfold handleStartInstantCallClick. run.
    destruct (Els.callType (_els st)) as [v|]; [|done]. rewrite Hsel. cbn.
    destruct (Els.role (_els st)); [|done].
    destruct (Els.currentUserId (_els st)); [|done].
    by destruct (Els.targetUserId (_els st)). }
  split.
  { unfold handleAcceptClick. run.
    destruct (Els.currentUserId (_els st)); [|done].
    destruct (Els.targetUserId (_els st)); [|done].
    destruct (Els.callType (_els st)) as [v|]; [|done]. rewrite Hsel. cbn.
    by destruct (Els.role (_els st)). }
  split.
  { unfold handleRejectClick. run.
    destruct (Els.currentUserId (_els st)); [|done].
    destruct (Els.targetUserId (_els st)); [|done].
    destruct (Els.callType (_els st)) as [v|]; [|done]. rewrite Hsel. cbn.
    by destruct (Els.rejectReason (_els st)). }
  split.
  { unfold handleCancelClick. run.
    destruct (Els.currentUserId (_els st)); [|done].
    destruct (Els.targetUserId (_els st)); [|done].
    destruct (Els.callType (_els st)) as [v|]; [|done]. by rewrite Hsel. }
  intros mediaType v. unfold _initiateCall, start_ringing, with_callType. run.
  destruct (Els.role (_els st)) as [callerRole|]; [|by split; [|split; [|intros ? ?%elem_of_nil]]].
  destruct (Els.currentUserId (_els st)) as [callerIdVal|]; [|by split; [|split; [|intros ? ?%elem_of_nil]]].
  destruct (Els.targetUserId (_els st)) as [calleeIdVal|]; [|by split; [|split; [|intros ? ?%elem_of_nil]]].
  destruct (missing callerIdVal); [by split; [|split; [|intros ? ?%elem_of_nil]]|].
  destruct (missing calleeIdVal); [by split; [|split; [|intros ? ?%elem_of_nil]]|].
  destruct (missing callerRole); [by split; [|split; [|intros ? ?%elem_of_nil]]|].
  run. split; [done|]. split; [done|].
  by intros payload ->%list_elem_of_singleton.
Qed.

(* ---------------------------------------------------------------------- *)
(* ensureCamMicReady                                                      *)
(* ---------------------------------------------------------------------- *)

Lemma onEvents_cases callMode currentSide evs :
  (CamMic.onEvents callMode currentSide evs = []
   /\ Forall (fun ev => reported callMode ev = false) evs)
  \/ (CamMic.onEvents callMode currentSide evs
      = [CamMic.removeListener;
         CamMic.uiState (CamMic.acceptedState currentSide) "none";
         CamMic.resolve]
      /\ Exists (fun ev => reported callMode ev = true) evs).
Proof.
  induction evs as [|ev evs IH]; [by left|].
  cbn [CamMic.onEvents]. unfold CamMic.onChecked. fold (reported callMode ev).
  destruct (reported callMode ev) eqn:E.
  - right. split; [done|]. by apply Exists_cons_hd.
  - destruct IH as [[-> IH]|[-> IH]].
    + left. split; [done|]. by constructor.
    + right. split; [done|]. by apply Exists_cons_tl.
Qed.

(** X21: an audio call never waits for the camera.  With call mode
    "audio", ensureCamMicReady sets the audio-only mode, counts the
    permissions as satisfied exactly when the microphone is granted,
    whatever the camera reports, and among all it does there is no request
    for both devices; with any other call mode, a missing one included,
    camera and microphone must both be granted. *)
Theorem audio_call_never_waits_for_camera callMode currentSide camera microphone evs :
  is_str callMode "audio" = true ->
  CamMic.isSatisfied callMode camera microphone = is_str microphone "granted"
  /\ (CamMic.setCallMode "audioOnlyCall"
      ∈ ensureCamMicReady_actions callMode currentSide camera microphone evs)
  /\ (CamMic.request "CamMic:Request:Both"
      ∉ ensureCamMicReady_actions callMode currentSide camera microphone evs)
  /\ forall otherMode,
       is_str otherMode "audio" = false ->
       CamMic.isSatisfied otherMode camera microphone
       = is_str camera "granted" && is_str microphone "granted".
Proof.
  intros Ha. unfold ensureCamMicReady_actions, CamMic.start,
    CamMic.proceedRequestIfNeeded, CamMic.isSatisfied, CamMic.requiresCamera.
  rewrite Ha. cbn [negb orb andb].
  split; [done|]. split; [by apply elem_of_cons; left|]. split.
  - intros Hin.
    repeat (apply elem_of_cons in Hin as [Hin | Hin]; [discriminate|]).
    apply elem_of_app in Hin as [Hin | Hin].
    + destruct (is_str microphone "granted");
        repeat (apply elem_of_cons in Hin as [Hin | Hin]; [discriminate|]);
        by apply elem_of_nil in Hin.
    + destruct (onEvents_cases callMode currentSide evs) as [[E _]|[E _]];
        rewrite E in Hin;
        repeat (apply elem_of_cons in Hin as [Hin | Hin]; [discriminate|]);
        by apply elem_of_nil in Hin.
  - intros otherMode ->. done.
Qed.

(** X22: the promise of ensureCamMicReady resolves exactly when the
    permissions are reported as granted: by the first check, or by a
    CamMic:Permissions:Checked event.  The listener is removed by such an
    event only, so when the first check already satisfies, the promise
    resolves with the listener still registered; events that report a
    missing permission cause nothing, neither a UI state nor a second
    request. *)
Theorem promise_resolves_when_granted callMode currentSide camera microphone evs :
  let first := CamMic.proceedRequestIfNeeded callMode currentSide camera microphone in
  let later := CamMic.onEvents callMode currentSide evs in
  (CamMic.resolve ∈ first <-> CamMic.isSatisfied callMode camera microphone = true)
  /\ (CamMic.resolve ∈ later <-> Exists (fun ev => reported callMode ev = true) evs)
  /\ (CamMic.removeListener ∉ (CamMic.start callMode currentSide ++ first)%list)
  /\ (Forall (fun ev => reported callMode ev = false) evs -> later = []).
Proof.
  cbn zeta. unfold CamMic.proceedRequestIfNeeded, CamMic.start.
  split.
  { destruct (CamMic.isSatisfied callMode camera microphone).
    - split; [done|]. intros _. by apply elem_of_cons; left.
    - split; [|done]. intros Hin.
      repeat (apply elem_of_cons in Hin as [Hin | Hin]; [discriminate|]).
      by apply elem_of_nil in Hin. }
  split.
  { destruct (onEvents_cases callMode currentSide evs) as [[E H]|[E H]]; rewrite E.
    - split; [by intros ?%elem_of_nil|].
      intros Hex. apply Exists_exists in Hex as (ev & Hin & Hr).
      rewrite Forall_forall in H. apply H in Hin. congruence.
    - split; [done|]. intros _.
      apply elem_of_cons; right. apply elem_of_cons; right.
      by apply elem_of_cons; left. }
  split.
  { intros Hin.
    repeat (apply elem_of_cons in Hin as [Hin | Hin]; [discriminate|]).
    destruct (CamMic.isSatisfied callMode camera microphone);
      repeat (apply elem_of_cons in Hin as [Hin | Hin]; [discriminate|]);
      by apply elem_of_nil in Hin. }
  intros Hall.
  destruct (onEvents_cases callMode currentSide evs) as [[E H]|[E H]]; [done|].
  apply Exists_exists in H as (ev & Hin & Hr).
  rewrite Forall_forall in Hall. apply Hall in Hin. congruence.
Qed.

(* ---------------------------------------------------------------------- *)
(* Instances of the further properties                                    *)
(* ---------------------------------------------------------------------- *)

(* alice has called bob and carol rings alice: one timeout per side. *)
Lemma one_armed_timer_per_side_witness :
  timers initial = ∅
  /\ forall id,
       timers (run_events Example.glare initial).1 !! id = Some calleeRingTimeout ->
       _calleeRingTimerId (run_events Example.glare initial).1 = Some id.
Proof.
  split; [reflexivity|].
  destruct (one_armed_timer_per_side Example.glare initial) as (_ & H & _);
    [reflexivity | exact H].
Defined.



(* alice calls bob and cancels. *)
Lemma cancel_leaves_ring_timer_armed_witness :
  is_start (detail_of (Scenario.start "alice" "bob")) = true
  /\ is_cancel (detail_of (Example.cancel "alice" "bob")) = true
  /\ _callerRingTimerId
       (state_of (handleAppCancelCall (Example.cancel "alice" "bob")
                    (state_of (handleAppStartCall (Scenario.start "alice" "bob")
                                 initial)))) = Some 1.
Proof.
  split; [reflexivity|]. split; [reflexivity|].
  destruct (cancel_leaves_ring_timer_armed initial (Scenario.start "alice" "bob")
              (Example.cancel "alice" "bob") eq_refl eq_refl) as (_ & H & _).
  exact H.
Defined.

(* bob accepts alice's call. *)
Lemma accepted_disarms_caller_witness :
  is_accept (detail_of (Scenario.accept "alice" "bob")) = true
  /\ is_null (Invite.callerRole (_invite Scenario.ringing_callee)) = false
  /\ _callerRingTimerId Scenario.ringing_caller = Some 1
  /\ timers (state_of (onSocketMessage FLAGS.CALL_ACCEPTED
                         (Scenario.accepted "alice" "bob") Scenario.ringing_caller))
     !! 1 = None.
Proof.
  split; [reflexivity|]. split; [reflexivity|]. split; [reflexivity|].
  destruct (accepted_disarms_caller Scenario.ringing_callee Scenario.ringing_caller
              (Scenario.accept "alice" "bob") 1 eq_refl eq_refl eq_refl)
    as (_ & _ & _ & _ & H & _).
  exact H.
Defined.




(* alice cancelled and bob's timeout fell due; bob accepts all the same. *)
Lemma invitation_is_never_withdrawn_witness :
  no_incoming Example.cancelled
  /\ is_null (Invite.callerRole (_invite Scenario.ringing_callee)) = false
  /\ is_accept (detail_of (Scenario.accept "alice" "bob")) = true
  /\ sent FLAGS.CALL_ACCEPTED
       (trace_of (handleAppAcceptCall (Scenario.accept "alice" "bob")
                    (run_events Example.cancelled Scenario.ringing_callee).1))
     = [Scenario.accepted "alice" "bob"].
Proof.
  assert (Hno : no_incoming Example.cancelled)
    by (repeat constructor).
  split; [exact Hno|]. split; [reflexivity|]. split; [reflexivity|].
  destruct (invitation_is_never_withdrawn Example.cancelled Scenario.ringing_callee
              (Scenario.accept "alice" "bob") Hno eq_refl eq_refl) as (_ & H & _).
  exact H.
Defined.

(* bob's page is filled in, but nobody has called. *)
Lemma accept_needs_an_invitation_witness :
  let st' := (run_events Example.cancelled (Example.page "bob" "alice")).1 in
  no_incoming Example.cancelled
  /\ is_null (Invite.callerRole (_invite (Example.page "bob" "alice"))) = true
  /\ handleAcceptClick st' = (None, st', []).
Proof.
  cbn zeta.
  assert (Hno : no_incoming Example.cancelled)
    by (repeat constructor).
  split; [exact Hno|]. split; [reflexivity|].
  destruct (accept_needs_an_invitation Example.cancelled (Example.page "bob" "alice")
              (Scenario.accept "alice" "bob") Hno eq_refl) as (H & _).
  exact H.
Defined.

(* bob's Accepted raises alice's guard. *)
Lemma guard_raised_by_acceptance_only_witness :
  let ev := socketMessage FLAGS.CALL_ACCEPTED (Scenario.accepted "alice" "bob") in
  _inCallOrConnecting Scenario.ringing_caller = false
  /\ _inCallOrConnecting (state_of (dispatch ev Scenario.ringing_caller)) = true
  /\ (ev = click btnAccept
      \/ exists body, ev = socketMessage FLAGS.CALL_ACCEPTED body).
Proof.
  cbn zeta. split; [reflexivity|]. split; [reflexivity|].
  apply (guard_raised_by_acceptance_only
           (socketMessage FLAGS.CALL_ACCEPTED (Scenario.accepted "alice" "bob"))
           Scenario.ringing_caller); reflexivity.
Defined.

(* alice presses the audio button. *)
Lemma media_type_reaches_callee_witness :
  truthy (VStr "audio") = true
  /\ sent FLAGS.CALL_INITIATE (trace_of (_initiateCall (VStr "audio") Example.alice_page))
     = [Example.audio_initiate]
  /\ _inCallOrConnecting initial = false
  /\ Invite.callType
       (_invite (state_of (handleSocketIncomingCall Example.audio_initiate initial)))
     = VStr "audio".
Proof.
  assert (Hs : sent FLAGS.CALL_INITIATE
                 (trace_of (_initiateCall (VStr "audio") Example.alice_page))
               = [Example.audio_initiate]) by (vm_compute; reflexivity).
  split; [reflexivity|]. split; [exact Hs|]. split; [reflexivity|].
  destruct (media_type_reaches_callee Example.alice_page initial (VStr "audio")
              Example.audio_initiate eq_refl Hs eq_refl) as (_ & H & _).
  exact H.
Defined.

(* alice starts through the app event. *)
Lemma plain_start_rings_as_video_witness :
  is_start (detail_of (Scenario.start "alice" "bob")) = true
  /\ _inCallOrConnecting initial = false
  /\ sent FLAGS.CALL_INITIATE
       (trace_of (handleAppStartCall (Scenario.start "alice" "bob") initial))
     = [Scenario.initiate "alice" "bob"]
  /\ Invite.callType
       (_invite (state_of (handleSocketIncomingCall (Scenario.initiate "alice" "bob")
                             initial)))
     = VStr "video".
Proof.
  split; [reflexivity|]. split; [reflexivity|]. split; [reflexivity|].
  destruct (plain_start_rings_as_video initial initial (Scenario.start "alice" "bob")
              eq_refl eq_refl (Scenario.initiate "alice" "bob") eq_refl)
    as (_ & H & _).
  exact H.
Defined.


(* alice's join completes. *)
Lemma join_event_is_complete_witness :
  let t := awaitAddAttendee (callerJoin (Scenario.meetingReady "alice" "bob"))
             Scenario.caller_join_args in
  let c := fetched (Resolved Scenario.addAttendee_response) in
  dispatchEvent "chime:join:meeting" Example.join_detail
  ∈ trace_of (resume t c Scenario.accepted_caller)
  /\ truthy (prop (prop (prop Example.join_detail "meetingInfo") "Meeting")
               "MediaPlacement") = true.
Proof.
  cbn zeta.
  assert (Hin : dispatchEvent "chime:join:meeting" Example.join_detail
                ∈ trace_of
                    (resume
                       (awaitAddAttendee (callerJoin (Scenario.meetingReady "alice" "bob"))
                          Scenario.caller_join_args)
                       (fetched (Resolved Scenario.addAttendee_response))
                       Scenario.accepted_caller)).
  { apply elem_of_cons. left. reflexivity. }
  split; [exact Hin|].
  destruct (join_event_is_complete _ _ _ _ Hin) as (H & _).
  exact H.
Defined.

(* a 500 that carries a meeting *)
Lemma http_status_checked_except_by_create_witness :
  ok Example.server_error = false
  /\ createChimeMeeting_finish (Resolved Example.chimeMeeting_response)
     = createChimeMeeting_finish (Resolved Example.server_error).
Proof.
  split; [reflexivity|].
  destruct (http_status_checked_except_by_create Scenario.caller_join_args
              Example.server_error eq_refl) as (_ & _ & H).
  exact (H Example.chimeMeeting_response eq_refl).
Defined.

(* the Initiate of alice's call *)
Lemma only_protocol_messages_are_sent_witness :
  let evs := [appEvent "app:call:start" (Scenario.start "alice" "bob")] in
  sendSocketMessage FLAGS.CALL_INITIATE (Scenario.initiate "alice" "bob")
    (Some SCHEMA.initiate) ∈ (run_events evs initial).2
  /\ (FLAGS.CALL_INITIATE, Some SCHEMA.initiate) ∈ protocol.
Proof.
  cbn zeta.
  assert (Hin : sendSocketMessage FLAGS.CALL_INITIATE (Scenario.initiate "alice" "bob")
                  (Some SCHEMA.initiate)
                ∈ (run_events [appEvent "app:call:start" (Scenario.start "alice" "bob")]
                     initial).2).
  { apply elem_of_cons. right. apply elem_of_cons. left. reflexivity. }
  split; [exact Hin|].
  destruct (only_protocol_messages_are_sent _ _ _ _ _ Hin) as (H & _).
  exact H.
Defined.

(* an app:call:start without callee *)
Lemma invalid_app_event_is_dropped_witness :
  let e := VObj [("detail", VObj [("callerId", VStr "alice");
                                  ("callType", VStr TYPE_INSTANT)])] in
  app_event_taken "app:call:start" (detail_of e) = false
  /\ onAppEvent "app:call:start" e initial = (None, initial, []).
Proof.
  cbn zeta. split; [reflexivity|].
  apply (invalid_app_event_is_dropped "app:call:start"
           (VObj [("detail", VObj [("callerId", VStr "alice");
                                   ("callType", VStr TYPE_INSTANT)])])
           initial).
  reflexivity.
Defined.

(* a page without inputs *)
Lemma call_type_input_gates_plain_buttons_witness :
  instant_selected initial = false
  /\ onClick btnStart initial = (None, initial, []).
Proof.
  split; [reflexivity|].
  destruct (call_type_input_gates_plain_buttons initial eq_refl) as (H & _).
  exact H.
Defined.

(* an audio call with the camera denied *)
Lemma audio_call_never_waits_for_camera_witness :
  is_str (VStr "audio") "audio" = true
  /\ CamMic.isSatisfied (VStr "audio") (VStr "denied") (VStr "granted") = true.
Proof.
  split; [reflexivity|].
  destruct (audio_call_never_waits_for_camera (VStr "audio") (VStr "callee")
              (VStr "denied") (VStr "granted") [] eq_refl) as (H & _).
  rewrite H. reflexivity.
Defined.
